(** * Draft/publish workflow of the field-guide content backend

    A shallow embedding of

    - [backend/src/modules/species/species.repository.ts]
      (the species [SpeciesRepository]: listing, draft, publish),
    - the public site's species repository (the client-side
      [findPublished] / [findBySlug] / [findById] mappings), and
    - [backend/src/modules/users/users.service.ts] ([UsersService.update]),

    together with the properties of the draft/publish state machine, the
    listing contract and the role-change authorisation. *)

From Stdlib Require Import ZArith Ascii String.
From stdpp Require Import gmap strings list fin_maps pretty sorting.

Set Warnings "-register-all".
Open Scope Z_scope.

(** ** JavaScript values *)

Module JS.

(** Values that a row, a JSON column or a request body can hold.  [JDate]
    is a JavaScript [Date] (milliseconds since the epoch), which is what
    the ORM returns for a [timestamp] column.  Numbers are integers: no
    operation modelled here produces a fraction. *)
Inductive json : Type :=
| JNull
| JBool (b : bool)
| JNum (n : Z)
| JStr (s : string)
| JDate (t : Z)
| JArr (l : list json)
| JObj (m : gmap string json).

(** A JavaScript expression evaluates to a [json] value or to [undefined];
    an object is a finite map from property names to values, and reading
    a missing property gives [undefined]. *)
Abbreviation jsval := (option json).
Abbreviation object := (gmap string json).

(** [ToBoolean]: [undefined], [null], [false], [0] and the empty string
    are falsy; everything else, every object and every [Date] included,
    is truthy. *)
Definition truthy (v : jsval) : bool :=
  match v with
  | None => false
  | Some JNull => false
  | Some (JBool b) => b
  | Some (JNum n) => negb (n =? 0)
  | Some (JStr s) => negb (String.eqb s "")
  | Some (JDate _) | Some (JArr _) | Some (JObj _) => true
  end.

(** [a || b] *)
Definition or_else (a b : jsval) : jsval := if truthy a then a else b.

(** The own enumerable properties copied by an object spread [{...v}]:
    the properties of an object, the indices of an array, the characters
    of a string, and nothing for any other value. *)
Definition indexed {A} (f : A → json) (l : list A) : object :=
  list_to_map (imap (λ i x, (pretty i, f x)) l).

Definition spread (v : jsval) : object :=
  match v with
  | Some (JObj m) => m
  | Some (JArr l) => indexed (λ x, x) l
  | Some (JStr s) => indexed (λ c, JStr (String c EmptyString)) (list_ascii_of_string s)
  | _ => ∅
  end.

(** [v?.k] on a value that is an object or nullish. *)
Definition prop (v : jsval) (k : string) : jsval :=
  match v with
  | Some (JObj m) => m !! k
  | _ => None
  end.

(** [v === 's'] for a string literal. *)
Definition is_string (v : jsval) (s : string) : bool :=
  match v with
  | Some (JStr s') => String.eqb s' s
  | _ => false
  end.

(** What the repository methods throw. *)
Inductive exn : Type :=
| Error (message : string)
| TypeError (message : string)
| NotFoundException (message : string)
| ForbiddenException (message : string).

Inductive outcome (A : Type) : Type :=
| Ok (a : A)
| Throw (e : exn).
Global Arguments Ok {A} a.
Global Arguments Throw {A} e.

End JS.
Import JS.

(** ** The relational store, as the ORM calls use it *)

Module Store.

(** A selected row is an object with one property per column of its table
    ([null] for SQL NULL).  A table is the list of its rows in the order
    in which the store scans them for one query; that order is not
    determined by the contents (an UPDATE moves a row) and may differ
    from one query to the next, so every statement below holds for every
    scan order, and a statement about several queries takes one scan
    order per query. *)
Abbreviation row := (gmap string json).

(** [eq(column, n)] and [eq(column, 's')]: SQL equality, never true on NULL. *)
Definition sql_eq_num (v : jsval) (n : Z) : bool :=
  match v with
  | Some (JNum m) => m =? n
  | _ => false
  end.

Definition sql_eq_text (v : jsval) (s : string) : bool := is_string v s.

(** [ilike(column, pattern)]: [%] matches any run of characters, [_] any
    one character, a backslash quotes the next pattern character, and
    letters match without regard to case. *)
Definition lower (c : ascii) : ascii :=
  let n := nat_of_ascii c in
  if ((65 <=? n) && (n <=? 90))%nat then ascii_of_nat (n + 32) else c.

Definition same_letter (c d : ascii) : bool := Ascii.eqb (lower c) (lower d).

Fixpoint like (p s : list ascii) {struct p} : bool :=
  match p with
  | [] => match s with [] => true | _ => false end
  | "%"%char :: p' =>
      (fix any_suffix (s : list ascii) : bool :=
         like p' s || match s with [] => false | _ :: s' => any_suffix s' end) s
  | "_"%char :: p' =>
      match s with [] => false | _ :: s' => like p' s' end
  | "\"%char :: c :: p' =>
      match s with [] => false | d :: s' => same_letter c d && like p' s' end
  | c :: p' =>
      match s with [] => false | d :: s' => same_letter c d && like p' s' end
  end.

Definition ilike (v : jsval) (pattern : string) : bool :=
  match v with
  | Some (JStr s) => like (list_ascii_of_string pattern) (list_ascii_of_string s)
  | _ => false
  end.

(** [db.select().from(t).where(c)] *)
Definition select_where (c : row → bool) (t : list row) : list row :=
  List.filter c t.

(** [.set(values)] on one row: every column named in [values] takes the
    new value, every other column keeps its own, and a key of [values]
    that is not a column of the table is ignored. *)
Definition set_columns (values : object) (r : row) : row :=
  map_imap (λ k old, Some (default old (values !! k))) r.

(** [db.update(t).set(values).where(c)] and its [.returning()]. *)
Definition update_where (c : row → bool) (values : object) (t : list row) : list row :=
  map (λ r, if c r then set_columns values r else r) t.

Definition returning (c : row → bool) (values : object) (t : list row) : list row :=
  map (set_columns values) (List.filter c t).

(** [db.delete(t).where(c)] *)
Definition delete_where (c : row → bool) (t : list row) : list row :=
  List.filter (λ r, negb (c r)) t.

(** [.orderBy(desc(createdAt))]: later timestamps first, NULLs before
    every timestamp.  Rows with equal keys keep their scan order, which
    is one of the orders the store may produce for them. *)
Definition created_key (r : row) : option Z :=
  match r !! "createdAt" with
  | Some (JDate t) => Some t
  | _ => None
  end.

Definition desc_le (a b : option Z) : bool :=
  match a, b with
  | None, _ => true
  | Some _, None => false
  | Some x, Some y => y <=? x
  end.

Definition created_desc (r1 r2 : row) : Prop :=
  desc_le (created_key r1) (created_key r2) = true.

Fixpoint insert_desc (x : row) (l : list row) : list row :=
  match l with
  | [] => [x]
  | y :: l' =>
      if desc_le (created_key x) (created_key y) then x :: y :: l'
      else y :: insert_desc x l'
  end.

Fixpoint order_by_created_desc (l : list row) : list row :=
  match l with
  | [] => []
  | x :: l' => insert_desc x (order_by_created_desc l')
  end.

End Store.
Import Store.

(** ** [SpeciesRepository] (backend) *)

Module SpeciesRepository.

(** The species table: its rows and the next value of the [serial]
    sequence behind [id]. *)
Record db : Type := Db { rows : list row; id_seq : Z }.

(** The parameter object of [findAll]; an omitted property is [None]. *)
Record params : Type := Params {
  page : option Z;
  limit : option Z;
  search : option string;
  mainGroup : option string;
  status : option string
}.

Module Pagination.
Record t : Type := Make { page : Z; limit : Z; total : Z; totalPages : Z }.
End Pagination.

Record listing : Type := Listing { data : list row; pagination : Pagination.t }.

Definition statuses : list string := ["draft"; "published"; "archived"].

Definition validGroups : list string :=
  ["mammal"; "bird"; "reptile"; "amphibian"; "fish"; "insect"; "arachnid";
   "crustacean"; "mollusk"; "plant"; "fungus"; "algae"; "other"].

(** [xs.includes(s)] *)
Definition includes (xs : list string) (s : string) : bool :=
  existsb (String.eqb s) xs.

(** A string parameter is truthy when it is given and not empty. *)
Definition given (o : option string) : option string :=
  match o with
  | Some s => if String.eqb s "" then None else Some s
  | None => None
  end.

(** [Math.ceil(count / limit)] on integers, for [limit > 0]. *)
Definition Math_ceil_div (count limit : Z) : Z := - ((- count) / limit).

(** The [conditions] array built by [findAll]. *)
Definition conditions (p : params) : list (row → bool) :=
  match given (status p) with
  | Some s =>
      if includes statuses s then [λ r : row, sql_eq_text (r !! "status") s] else []
  | None => []
  end ++
  match given (mainGroup p) with
  | Some g =>
      if includes validGroups g then [λ r : row, sql_eq_text (r !! "mainGroup") g] else []
  | None => []
  end ++
  match given (search p) with
  | Some s =>
      [λ r : row,
         ilike (r !! "commonName") ("%" +:+ s +:+ "%")
         || ilike (r !! "scientificName") ("%" +:+ s +:+ "%")]
  | None => []
  end.

(** [and(...conditions)], and no WHERE at all for an empty array. *)
Definition whereClause (p : params) (r : row) : bool :=
  forallb (λ c, c r) (conditions p).

(** The rows one query ranges over, in the order of its ORDER BY, before
    LIMIT and OFFSET; rows with equal [createdAt] come in the scan order
    of that query. *)
Definition matching (p : params) (d : db) : list row :=
  order_by_created_desc (select_where (whereClause p) (rows d)).

(** [findAll].  Every selected row carries [count( * ) OVER ()], the number
    of rows that satisfy the WHERE clause; [page] and [limit] are
    non-negative integers (the store rejects a negative LIMIT or OFFSET). *)
Definition findAll (p : params) (d : db) : listing :=
  let page := default 1 (page p) in
  let limit := default 20 (limit p) in
  let offset := (page - 1) * limit in
  let all := matching p d in
  let results :=
    map (λ r, (r, Z.of_nat (List.length all)))
        (take (Z.to_nat limit) (drop (Z.to_nat offset) all)) in
  let data := map fst results in
  let count := match results with (_, totalCount) :: _ => totalCount | [] => 0 end in
  Listing data (Pagination.Make page limit count (Math_ceil_div count limit)).

(** [const [x] = await db.select().from(species).where(eq(species.id, id))] *)
Definition has_id (id : Z) (r : row) : bool := sql_eq_num (r !! "id") id.

Definition select_by_id (id : Z) (d : db) : option row :=
  head (select_where (has_id id) (rows d)).

(** [findById]; with [includeDraft] and a pending draft the draft is
    spread over the row and [isDraft] is added. *)
Definition findById (id : Z) (includeDraft : bool) (d : db) : option row :=
  match select_by_id id d with
  | Some result =>
      if includeDraft && truthy (result !! "hasDraft") && truthy (result !! "draftData")
      then Some (<["isDraft" := JBool true]> (spread (result !! "draftData") ∪ result))
      else Some result
  | None => None
  end.

Definition findBySlug (slug : string) (d : db) : option row :=
  head (select_where (λ r, sql_eq_text (r !! "slug") slug) (rows d)).

(** [update]: one UPDATE with the caller's data and a fresh [updatedAt]. *)
Definition update (now : Z) (id : Z) (data : object) (d : db) : option row * db :=
  let values := <["updatedAt" := JDate now]> data in
  (head (returning (has_id id) values (rows d)),
   Db (update_where (has_id id) values (rows d)) (id_seq d)).

Definition delete (id : Z) (d : db) : db :=
  Db (delete_where (has_id id) (rows d)) (id_seq d).

(** [Object.keys(o).forEach(k => { if (o[k] === undefined) delete o[k] })] *)
Definition remove_undefined (o : gmap string jsval) : object := omap (λ v, v) o.

(** The [updateData] object that [publish] builds from the current row,
    before the undefined-cleanup. *)
Definition updateData (publishedAt updatedAt : Z) (current : row) : gmap string jsval :=
  let draft := spread (current !! "draftData") in
  let draftRichContentField := draft !! "richContent" in
  let otherDraftFields := base.delete "richContent" draft in
  let richContentToSave :=
    match draftRichContentField with
    | Some v => Some v
    | None => current !! "richContent"
    end in
  <["updatedAt" := Some (JDate updatedAt)]>
  (<["publishedAt" := Some (JDate publishedAt)]>
  (<["status" := Some (JStr "published")]>
  (<["draftCreatedAt" := Some JNull]>
  (<["hasDraft" := Some (JBool false)]>
  (<["draftData" := Some JNull]>
  (<["richContent" := richContentToSave]>
  (Some <$> otherDraftFields))))))).

Definition not_found : exn := Error "Species not found".
Definition nothing_to_publish : exn := Error "Nothing to publish".
Definition undefined_read (property : string) : exn :=
  TypeError ("Cannot read properties of undefined (reading '" +:+ property +:+ "')").

(** The [.set({ ... })] of the branch that publishes a record which was
    never published and has no draft. *)
Definition publish_set (publishedAt updatedAt : Z) : object :=
  <["updatedAt" := JDate updatedAt]>
  (<["publishedAt" := JDate publishedAt]>
  (<["status" := JStr "published"]> ∅)).

(** [publish].  [publishedAt] and [updatedAt] are the two [new Date()] of
    the branch taken.  The draft branch reads [result.status] and, after
    re-selecting the row by [id], [verification.richContent] for its log
    lines; both reads throw on [undefined]. *)
Definition publish (publishedAt updatedAt : Z) (id : Z) (d : db) : outcome row * db :=
  match select_by_id id d with
  | None => (Throw not_found, d)
  | Some current =>
      if truthy (current !! "draftData") then
        let values := remove_undefined (updateData publishedAt updatedAt current) in
        let d' := Db (update_where (has_id id) values (rows d)) (id_seq d) in
        match head (returning (has_id id) values (rows d)) with
        | None => (Throw (undefined_read "status"), d')
        | Some result =>
            match select_by_id id d' with
            | None => (Throw (undefined_read "richContent"), d')
            | Some verification => (Ok result, d')
            end
        end
      else if is_string (current !! "status") "draft" then
        let values := publish_set publishedAt updatedAt in
        let d' := Db (update_where (has_id id) values (rows d)) (id_seq d) in
        match head (returning (has_id id) values (rows d)) with
        | None => (Throw (undefined_read "status"), d')
        | Some result => (Ok result, d')
        end
      else (Throw nothing_to_publish, d)
  end.

(** The [.set({ ... })] of [createDraft]: the patch is spread over the
    existing draft (or over [{}]), and [draftCreatedAt] is kept when it is
    set.  [draftCreatedAt] and [updatedAt] stand for the two [new Date()]. *)
Definition createDraft_set (draftCreatedAt updatedAt : Z) (patch : object) (current : row)
  : object :=
  let existingDraft := or_else (current !! "draftData") (Some (JObj ∅)) in
  let updatedDraft := patch ∪ spread existingDraft in
  <["updatedAt" := JDate updatedAt]>
  (<["draftCreatedAt" :=
       default JNull (or_else (current !! "draftCreatedAt") (Some (JDate draftCreatedAt)))]>
  (<["hasDraft" := JBool true]>
  (<["draftData" := JObj updatedDraft]> ∅))).

(** [createDraft]; [patch] is the object of fields to change. *)
Definition createDraft (draftCreatedAt updatedAt : Z) (id : Z) (patch : object) (d : db)
  : outcome (option row) * db :=
  match select_by_id id d with
  | None => (Throw not_found, d)
  | Some current =>
      let values := createDraft_set draftCreatedAt updatedAt patch current in
      (Ok (head (returning (has_id id) values (rows d))),
       Db (update_where (has_id id) values (rows d)) (id_seq d))
  end.

Definition discardDraft_set (now : Z) : object :=
  <["updatedAt" := JDate now]>
  (<["draftCreatedAt" := JNull]>
  (<["hasDraft" := JBool false]>
  (<["draftData" := JNull]> ∅))).

Definition discardDraft (now : Z) (id : Z) (d : db) : option row * db :=
  let values := discardDraft_set now in
  (head (returning (has_id id) values (rows d)),
   Db (update_where (has_id id) values (rows d)) (id_seq d)).

Section Insert.
(** The species table's own declaration is not part of the sources at
    hand, so the column defaults its INSERT fills in are a parameter:
    one entry per column, [null] for a column without default.  [id],
    [createdAt] and [updatedAt] default to the next sequence value and
    to the time of the insert. *)
Variable defaults : row.

Definition fresh_row (now : Z) (d : db) : row :=
  <["id" := JNum (id_seq d)]>
  (<["createdAt" := JDate now]>
  (<["updatedAt" := JDate now]> defaults)).

(** [create]: one INSERT of the caller's data over the defaults.  The
    sequence advances only when its value is used. *)
Definition create (now : Z) (data : object) (d : db) : option row * db :=
  let r := set_columns data (fresh_row now d) in
  (Some r,
   Db (rows d ++ [r])
      (if decide (is_Some (data !! "id")) then id_seq d else id_seq d + 1)).
End Insert.

End SpeciesRepository.

(** ** The public site's species repository (client side) *)

Module PublicSpecies.

(** [item.mainImage?.url || item.mainImageUrl || null] *)
Definition mainImageUrl (item : jsval) : json :=
  default JNull
    (or_else (or_else (prop (prop item "mainImage") "url") (prop item "mainImageUrl"))
             (Some JNull)).

(** [{ ...item, mainImageUrl: ... }] *)
Definition withMainImageUrl (item : jsval) : object :=
  <["mainImageUrl" := mainImageUrl item]> (spread item).

(** Reading a property off [null] throws. *)
Definition is_null (item : json) : bool :=
  match item with
  | JNull => true
  | _ => false
  end.

(** [findById], given what [apiClient.species.findById(id)] answered: a
    value, or a thrown error.  [None] is the [null] result. *)
Definition findById (response : outcome jsval) : option object :=
  match response with
  | Throw _ => None
  | Ok response => if truthy response then Some (withMainImageUrl response) else None
  end.

Record page_info : Type :=
  PageInfo { page : jsval; pageSize : jsval; total : jsval; totalPages : jsval }.

Record paginate_result : Type :=
  PaginateResult { data : list object; pagination : page_info }.

(** [findPublished], given [page], [limit] and the answer to the listing
    request.  Reading [data] off a nullish response, mapping over a
    value that is not an array, or reading [mainImage] off a [null] item
    throws inside the [try] and gives the empty page. *)
Definition findPublished (page limit : Z) (response : outcome jsval) : paginate_result :=
  let failed :=
    PaginateResult []
      (PageInfo (Some (JNum page)) (Some (JNum limit)) (Some (JNum 0)) (Some (JNum 0))) in
  match response with
  | Ok (Some (JObj r)) =>
      match or_else (r !! "data") (Some (JArr [])) with
      | Some (JArr items) =>
          if existsb is_null items then failed else
          let pg := r !! "pagination" in
          PaginateResult
            (map (λ item, withMainImageUrl (Some item)) items)
            (PageInfo (or_else (prop pg "page") (Some (JNum page)))
                      (or_else (prop pg "limit") (Some (JNum limit)))
                      (or_else (prop pg "total") (Some (JNum 0)))
                      (or_else (prop pg "totalPages") (Some (JNum 0))))
      | _ => failed
      end
  | _ => failed
  end.

(** [getLastPublished], given the answer to its listing request. *)
Definition getLastPublished (response : outcome jsval) : list object :=
  match response with
  | Ok (Some (JObj r)) =>
      match or_else (r !! "data") (Some (JArr [])) with
      | Some (JArr items) =>
          if existsb is_null items then []
          else map (λ item, withMainImageUrl (Some item)) items
      | _ => []
      end
  | _ => []
  end.

(** [getTotalPublished]: [response.total || 0], and [0] when the request
    or the read fails. *)
Definition getTotalPublished (response : outcome jsval) : json :=
  match response with
  | Ok response => default (JNum 0) (or_else (prop response "total") (Some (JNum 0)))
  | Throw _ => JNum 0
  end.

End PublicSpecies.

(** ** The public site's news repository (client side) *)

Module PublicNews.

(** [findBySlug], given what [apiClient.news.findBySlug(slug)] answered:
    [null] unless the answer is a record whose status is [published]. *)
Definition findBySlug (response : outcome jsval) : option object :=
  match response with
  | Throw _ => None
  | Ok response =>
      if negb (truthy response) || negb (is_string (prop response "status") "published")
      then None
      else Some (PublicSpecies.withMainImageUrl response)
  end.

(** [getTotalPublished]: [response.pagination?.total || 0]. *)
Definition getTotalPublished (response : outcome jsval) : json :=
  match response with
  | Ok (Some JNull) | Ok None | Throw _ => JNum 0
  | Ok response =>
      default (JNum 0)
        (or_else (prop (prop response "pagination") "total") (Some (JNum 0)))
  end.

End PublicNews.

(** ** [UsersService.update] *)

Module UsersService.

(** A row of the [users] table. *)
Record user : Type := User {
  id : Z;
  clerkId : string;
  email : string;
  username : option string;
  firstName : option string;
  lastName : option string;
  fullName : option string;
  avatarUrl : option string;
  bio : option string;
  isActive : bool;
  role : string;
  createdAt : Z;
  updatedAt : Z
}.

Section Service.
(** The service's two collaborators: the users repository over the local
    store, and the identity provider's client.  A provider call answers
    or throws. *)
Variable LocalStore : Type.
Variable findById : LocalStore → Z → option user.
Variable findByClerkId : LocalStore → string → option user.
Variable repository_update : LocalStore → Z → object → LocalStore * option user.

Variable Clerk : Type.
Variable getUser : Clerk → string → outcome jsval.
Variable updateUser : Clerk → string → object → outcome Clerk.

(** [syncRoleToClerk]: every failure inside is caught and logged. *)
Definition syncRoleToClerk (clerkId : string) (role : json) (st : LocalStore) (ck : Clerk)
  : Clerk :=
  match getUser ck clerkId with
  | Throw _ => ck
  | Ok publicMetadata =>
      let currentMetadata := or_else publicMetadata (Some (JObj ∅)) in
      match findByClerkId st clerkId with
      | None => ck
      | Some dbUser =>
          let metadata : object :=
            <["userId" := JNum (id dbUser)]>
            (<["role" := role]> (spread currentMetadata)) in
          match updateUser ck clerkId metadata with
          | Ok ck' => ck'
          | Throw _ => ck
          end
      end
  end.

(** [update(id, updateUserDto, currentUserId, currentUserRole)] *)
Definition update (target : Z) (updateUserDto : object)
    (currentUserId currentUserRole : string) (st : LocalStore) (ck : Clerk)
  : outcome (option user) * (LocalStore * Clerk) :=
  match findById st target with
  | None =>
      (Throw (NotFoundException ("User with ID " +:+ pretty target +:+ " not found")),
       (st, ck))
  | Some u =>
      if String.eqb (clerkId u) currentUserId && truthy (updateUserDto !! "role") then
        (Throw (ForbiddenException "You cannot change your own role"), (st, ck))
      else if truthy (updateUserDto !! "role") && negb (String.eqb currentUserRole "admin") then
        (Throw (ForbiddenException "Only admins can change user roles"), (st, ck))
      else
        let '(st', updatedUser) := repository_update st target updateUserDto in
        let ck' :=
          match updateUserDto !! "role", updatedUser with
          | Some role, Some _ =>
              if truthy (Some role) then syncRoleToClerk (clerkId u) role st' ck else ck
          | _, _ => ck
          end in
        (Ok updatedUser, (st', ck'))
  end.
(** What the provider's webhook hands to [createUserFromClerk]. *)
Record clerk_user : Type := ClerkUser {
  cu_clerkId : string;
  cu_email : string;
  cu_name : option string;
  cu_username : option string;
  cu_profileImageUrl : option string;
  cu_role : option string
}.

Variable createFromClerk : LocalStore → clerk_user → LocalStore * option user.

(** [createUserFromClerk]: the local insert, then a best-effort push of
    [role] and [userId] to the provider. *)
Definition createUserFromClerk (userData : clerk_user) (st : LocalStore) (ck : Clerk)
  : option user * (LocalStore * Clerk) :=
  let '(st', newUser) := createFromClerk st userData in
  match newUser with
  | None => (None, (st', ck))
  | Some u =>
      let ck' :=
        match getUser ck (cu_clerkId userData) with
        | Throw _ => ck
        | Ok publicMetadata =>
            let currentMetadata := or_else publicMetadata (Some (JObj ∅)) in
            let metadata : object :=
              <["userId" := JNum (id u)]>
              (<["role" := JStr (role u)]> (spread currentMetadata)) in
            match updateUser ck (cu_clerkId userData) metadata with
            | Ok ck' => ck'
            | Throw _ => ck
            end
        end in
      (Some u, (st', ck'))
  end.

(** A value held by [byRole]: a count, or the text that adding [1] to
    something that is not a number leaves. *)
Inductive tally : Type :=
| Counted (n : Z)
| Text (s : string).

(** The counters of [getUserStats].  [byRole] is the plain object
    [{}]: its own properties are the entries of the map, and a name it
    does not own is looked up on [Object.prototype]. *)
Record stats : Type := Stats {
  total : Z;
  byRole : gmap string tally;
  activeLastMonth : Z;
  activeLastWeek : Z;
  activeToday : Z
}.

(** [Object.prototype] as the engine provides it: for the name of a
    member that every plain object inherits ([constructor], [toString],
    [__proto__], ...) the text that member turns into when a number is
    added to it, and [None] for every other name. *)
Variable inherited : string → option string.

(** [(stats.byRole[role] || 0) + 1]: a count goes up by one; a text,
    own or inherited, gets ["1"] appended (an inherited member is an
    object, hence truthy). *)
Definition bump (own : option tally) (proto : option string) : tally :=
  match own with
  | Some (Counted n) => Counted (n + 1)
  | Some (Text t) => if String.eqb t "" then Counted 1 else Text (t +:+ "1")
  | None =>
      match proto with
      | Some t => Text (t +:+ "1")
      | None => Counted 1
      end
  end.

(** [stats.byRole[role] = v]: an own property is written, except under
    the name [__proto__], whose inherited setter ignores a value that is
    not an object. *)
Definition assign (role : string) (v : tally) (o : gmap string tally) : gmap string tally :=
  if String.eqb role "__proto__" then o else <[role := v]> o.

(** One step of the [forEach] in [getUserStats]. *)
Definition count_user (lastMonth lastWeek today : Z) (s : stats) (u : user) : stats :=
  Stats (total s)
        (assign (role u) (bump (byRole s !! role u) (inherited (role u))) (byRole s))
        (if lastMonth <=? createdAt u then activeLastMonth s + 1 else activeLastMonth s)
        (if lastWeek <=? createdAt u then activeLastWeek s + 1 else activeLastWeek s)
        (if today <=? createdAt u then activeToday s + 1 else activeToday s).

(** [getUserStats], given the repository's answer to [findAll({ limit:
    1000 })] (its [items] and its [totalItems]), the time [now] in
    milliseconds, and [today], the local midnight before [now]. *)
Definition getUserStats (items : list user) (totalItems : Z) (now today : Z) : stats :=
  let lastMonth := now - 30 * 24 * 60 * 60 * 1000 in
  let lastWeek := now - 7 * 24 * 60 * 60 * 1000 in
  fold_left (count_user lastMonth lastWeek today) items (Stats totalItems ∅ 0 0 0).

End Service.

End UsersService.

(** ** The properties, as the specification words them *)

Module Spec.

Import SpeciesRepository.

(** [v != null] *)
Definition non_null (v : jsval) : bool :=
  match v with
  | None | Some JNull => false
  | Some _ => true
  end.

(** [hasDraft == (draftData != null)] on a stored record. *)
Definition draft_invariant (r : row) : Prop :=
  is_Some (r !! "draftData") ∧
  r !! "hasDraft" = Some (JBool (non_null (r !! "draftData"))).


(** The columns that publishing sets itself, whatever the draft says. *)
Definition lifecycle : list string :=
  ["draftData"; "hasDraft"; "draftCreatedAt"; "status"; "publishedAt"; "updatedAt"].

(** The value of column [k] after a draft-backed publish: the published
    value overridden by every key present in the draft, with
    [status = published], the two timestamps, and the draft columns
    cleared. *)
Definition published_value (publishedAt updatedAt : Z) (draft : object)
    (k : string) (old : json) : json :=
  if decide (k = "status") then JStr "published"
  else if decide (k = "publishedAt") then JDate publishedAt
  else if decide (k = "updatedAt") then JDate updatedAt
  else if decide (k = "draftData") then JNull
  else if decide (k = "hasDraft") then JBool false
  else if decide (k = "draftCreatedAt") then JNull
  else default old (draft !! k).

(** The draft a record carries: the properties of [draftData], none when
    it is [null]. *)
Definition pending (r : row) : object :=
  spread (or_else (r !! "draftData") (Some (JObj ∅))).

(** Two records with the same creation time appear in ascending [id]. *)
Definition row_id (r : row) : option Z :=
  match r !! "id" with
  | Some (JNum n) => Some n
  | _ => None
  end.

Definition ties_by_id (l : list row) : Prop :=
  ∀ (i j : nat) (r1 r2 : row) (a b : Z),
    (i < j)%nat → l !! i = Some r1 → l !! j = Some r2 →
    created_key r1 = created_key r2 →
    row_id r1 = Some a → row_id r2 = Some b → a < b.

(** No two records of the table share a creation time. *)
Definition no_ties (t : list row) : Prop :=
  ∀ r1 r2, In r1 t → In r2 t → created_key r1 = created_key r2 → r1 = r2.

(** Two records that agree on every column but [k]. *)
Definition same_except (k : string) (r1 r2 : row) : Prop :=
  ∀ k', k' ≠ k → r1 !! k' = r2 !! k'.

(** The smallest number of pages of [limit] rows that hold [total] rows. *)
Definition is_ceil (total limit n : Z) : Prop :=
  (n - 1) * limit < total ≤ n * limit.

(** A [.set] that leaves [id] alone, or sets it to the id selected on. *)
Definition keeps_id (id : Z) (values : object) : Prop :=
  values !! "id" = None ∨ values !! "id" = Some (JNum id).

(** A record without a pending draft. *)
Definition no_draft (r : row) : Prop :=
  r !! "draftData" = Some JNull ∧
  r !! "hasDraft" = Some (JBool false) ∧
  r !! "draftCreatedAt" = Some JNull.

(** The columns that hold the draft. *)
Definition draft_columns : list string := ["draftData"; "hasDraft"; "draftCreatedAt"].

(** The listing parameters of page [n]. *)
Definition on_page (p : params) (n : Z) : params :=
  Params (Some n) (limit p) (search p) (mainGroup p) (status p).

(** The listing parameters with every filter that adds no condition
    left out: an empty string, a status outside the three literals, a
    group outside [validGroups]. *)
Definition effective (p : params) : params :=
  Params (page p) (limit p)
    (given (search p))
    (match given (mainGroup p) with
     | Some g => if includes validGroups g then Some g else None
     | None => None
     end)
    (match given (status p) with
     | Some s => if includes statuses s then Some s else None
     | None => None
     end).

(** A search term without a character that [ilike] reads as a wildcard
    or as its escape. *)
Definition plain_char (c : ascii) : Prop :=
  c ≠ "%"%char ∧ c ≠ "_"%char ∧ c ≠ "\"%char.

Definition plain (term : string) : Prop :=
  Forall plain_char (list_ascii_of_string term).

(** Two strings of the same letters, case apart. *)
Definition same_letters (s t : string) : Prop :=
  Forall2 (λ c d, same_letter c d = true)
          (list_ascii_of_string s) (list_ascii_of_string t).

(** The entry of [byRole] for a role that was counted [k] more times,
    starting from the entry [o]. *)
Definition tallied (o : option UsersService.tally) (k : Z) : option UsersService.tally :=
  match o with
  | None => if k =? 0 then None else Some (UsersService.Counted k)
  | Some (UsersService.Counted n) => Some (UsersService.Counted (n + k))
  | Some (UsersService.Text t) => Some (UsersService.Text t)
  end.

(** How many of the users satisfy a test. *)
Definition count_if (test : UsersService.user → bool) (items : list UsersService.user) : Z :=
  Z.of_nat (List.length (List.filter test items)).

(** The listing parameters without a status. *)
Definition without_status (p : params) : params :=
  Params (page p) (limit p) (search p) (mainGroup p) None.

End Spec.

(** ** Sample data *)

Module Sample.

Import SpeciesRepository.

Definition species (id : Z) (status commonName : string) (createdAt : Z)
    (draftData : json) : row :=
  list_to_map
    [("id", JNum id); ("slug", JStr commonName); ("status", JStr status);
     ("commonName", JStr commonName); ("scientificName", JNull);
     ("mainGroup", JStr "mammal"); ("richContent", JNull);
     ("publishedAt", JNull); ("createdAt", JDate createdAt);
     ("updatedAt", JDate createdAt);
     ("draftData", draftData);
     ("hasDraft", JBool (Spec.non_null (Some draftData)));
     ("draftCreatedAt", JNull)].

(** Record 42, published as "Puma". *)
Definition puma : row := species 42 "published" "Puma" 100 JNull.

(** The same record with a pending rename. *)
Definition puma_renamed : row :=
  species 42 "published" "Puma" 100 (JObj {[ "commonName" := JStr "Puma concolor" ]}).

(** The same record with a draft that carries another [id]. *)
Definition puma_renumbered : row :=
  species 42 "published" "Puma" 100 (JObj {[ "id" := JNum 43 ]}).

Definition huemul : row := species 7 "draft" "Huemul" 100 JNull.
Definition condor : row := species 9 "archived" "Condor" 50 JNull.

Definition pairs_params : params := Params None (Some 2) None None None.
Definition single_params : params := Params None (Some 1) None None None.
Definition two_records : db := Db [puma; condor] 43.

(** A store that scans the two records in one order for even page
    queries and in the other order for odd ones. *)
Definition alternating_scan (i : nat) : db :=
  if Nat.even i then Db [puma; condor] 43 else Db [condor; puma] 43.
Definition search_params (term : string) : params :=
  Params None None (Some term) None None.
Definition all_params : params := Params None None None None None.
Definition misspelt_params : params := Params None None None None (Some "publishd").
Definition three_records : db := Db [puma; huemul; condor] 43.
Definition published_params : params := Params None None None None (Some "published").

(** The column defaults of a table with the draft columns. *)
Definition defaults : row :=
  list_to_map
    [("id", JNull); ("slug", JNull); ("status", JStr "draft"); ("commonName", JNull);
     ("createdAt", JNull); ("updatedAt", JNull);
     ("draftData", JNull); ("hasDraft", JBool false); ("draftCreatedAt", JNull)].

(** An in-memory users repository and an identity provider that holds
    the public metadata per external id. *)
Definition users_findById (st : list UsersService.user) (id : Z) : option UsersService.user :=
  List.find (λ u, UsersService.id u =? id) st.

Definition users_findByClerkId (st : list UsersService.user) (c : string)
  : option UsersService.user :=
  List.find (λ u, String.eqb (UsersService.clerkId u) c) st.

Definition users_update (st : list UsersService.user) (id : Z) (dto : object)
  : list UsersService.user * option UsersService.user :=
  let set_role (u : UsersService.user) : UsersService.user :=
    match dto !! "role" with
    | Some (JStr r) =>
        UsersService.User (UsersService.id u) (UsersService.clerkId u) (UsersService.email u)
          (UsersService.username u) (UsersService.firstName u) (UsersService.lastName u)
          (UsersService.fullName u) (UsersService.avatarUrl u) (UsersService.bio u)
          (UsersService.isActive u) r (UsersService.createdAt u) (UsersService.updatedAt u)
    | _ => u
    end in
  (map (λ u, if UsersService.id u =? id then set_role u else u) st,
   set_role <$> users_findById st id).

Definition clerk_getUser (ck : gmap string json) (c : string) : outcome jsval :=
  match ck !! c with
  | Some publicMetadata => Ok (Some publicMetadata)
  | None => Throw (Error "Not Found")
  end.

Definition clerk_updateUser (ck : gmap string json) (c : string) (publicMetadata : object)
  : outcome (gmap string json) :=
  match ck !! c with
  | Some _ => Ok (<[c := JObj publicMetadata]> ck)
  | None => Throw (Error "Not Found")
  end.

Definition service_update :=
  UsersService.update (list UsersService.user) users_findById users_findByClerkId users_update
    (gmap string json) clerk_getUser clerk_updateUser.

(** What one engine inherits into every plain object, for three of the
    names. *)
Definition engine_inherited (name : string) : option string :=
  if String.eqb name "constructor" then Some "function Object() { [native code] }"
  else if String.eqb name "toString" then Some "function toString() { [native code] }"
  else if String.eqb name "__proto__" then Some "[object Object]"
  else None.

Definition editor : UsersService.user :=
  UsersService.User 1 "user_editor" "editor@example.org" None None None None None None
    true "species_editor" 0 0.

Definition odd_user : UsersService.user :=
  UsersService.User 3 "user_odd" "odd@example.org" None None None None None None
    true "constructor" 0 0.

Definition admin : UsersService.user :=
  UsersService.User 2 "user_admin" "admin@example.org" None None None None None None
    true "admin" 0 0.

End Sample.

(** * Properties *)

(** ** The store *)

Section StoreFacts.

Lemma lookup_set_columns (values : object) (r : row) (k : string) :
  set_columns values r !! k = (λ old, default old (values !! k)) <$> r !! k.
Proof.
  unfold set_columns. rewrite map_lookup_imap.
  destruct (r !! k); reflexivity.
Qed.

Lemma head_returning (c : row → bool) (values : object) (t : list row) :
  head (returning c values t) = set_columns values <$> head (List.filter c t).
Proof. unfold returning. destruct (List.filter c t); reflexivity. Qed.

Lemma head_filter_Some (c : row → bool) (t : list row) (r : row) :
  head (List.filter c t) = Some r → In r t ∧ c r = true.
Proof.
  intros H. apply filter_In.
  destruct (List.filter c t) as [|x l]; simplify_eq/=. now left.
Qed.

(** An update that leaves the selecting condition of every row as it was
    selects, afterwards, exactly the rows it returned. *)
Lemma filter_update_where (c : row → bool) (values : object) (t : list row) :
  (∀ r, c r = true → c (set_columns values r) = true) →
  List.filter c (update_where c values t) = returning c values t.
Proof.
  intros Hc. unfold update_where, returning.
  induction t as [|r t IH]; simpl; [reflexivity|].
  destruct (c r) eqn:E; simpl.
  - rewrite (Hc r E). simpl. now rewrite IH.
  - rewrite E. exact IH.
Qed.

Lemma update_where_elem (c : row → bool) (values : object) (t : list row) (r' : row) :
  In r' (update_where c values t) →
  (In r' t ∧ c r' = false) ∨ (∃ r, In r t ∧ c r = true ∧ r' = set_columns values r).
Proof.
  unfold update_where. rewrite in_map_iff. intros (r & <- & Hr).
  destruct (c r) eqn:E; [right; eauto | left; rewrite E; auto].
Qed.

End StoreFacts.

(** ** Ordering *)

Section Ordering.

Lemma desc_le_total (a b : option Z) : desc_le a b = false → desc_le b a = true.
Proof. destruct a, b; simpl; try done. intros H. apply Z.leb_le. apply Z.leb_gt in H. lia. Qed.

Lemma desc_le_trans (a b c : option Z) :
  desc_le a b = true → desc_le b c = true → desc_le a c = true.
Proof.
  destruct a, b, c; simpl; try done.
  rewrite !Z.leb_le. lia.
Qed.

Lemma created_desc_trans (x y z : row) :
  created_desc x y → created_desc y z → created_desc x z.
Proof. apply desc_le_trans. Qed.

Lemma insert_desc_perm (x : row) (l : list row) : insert_desc x l ≡ₚ x :: l.
Proof.
  induction l as [|y l IH]; simpl; [done|].
  destruct (desc_le _ _); [done|].
  rewrite IH. apply Permutation_swap.
Qed.

Lemma order_by_perm (l : list row) : order_by_created_desc l ≡ₚ l.
Proof.
  induction l as [|x l IH]; simpl; [done|].
  now rewrite insert_desc_perm, IH.
Qed.

Lemma insert_desc_sorted (x : row) (l : list row) :
  StronglySorted created_desc l → StronglySorted created_desc (insert_desc x l).
Proof.
  induction 1 as [|y l Hl IH Hy]; simpl.
  - repeat constructor.
  - destruct (desc_le (created_key x) (created_key y)) eqn:E.
    + constructor; [by constructor|].
      constructor; [exact E|].
      eapply Forall_impl; [exact Hy|].
      intros z Hz. by apply (created_desc_trans x y z).
    + constructor; [exact IH|].
      rewrite insert_desc_perm. constructor; [|exact Hy].
      by apply desc_le_total.
Qed.

Lemma order_by_sorted (l : list row) :
  StronglySorted created_desc (order_by_created_desc l).
Proof.
  induction l as [|x l IH]; simpl; [constructor|].
  by apply insert_desc_sorted.
Qed.

Lemma sorted_window (n m : nat) (l : list row) :
  StronglySorted created_desc l → StronglySorted created_desc (take n (drop m l)).
Proof.
  intros H.
  rewrite <- (take_drop m l) in H. apply StronglySorted_app_1_r in H.
  rewrite <- (take_drop n (drop m l)) in H. by apply StronglySorted_app_1_l in H.
Qed.

End Ordering.

(** ** Listing: [findAll] *)

Section Listing.

Import SpeciesRepository.

Lemma data_findAll (p : params) (d : db) :
  data (findAll p d) =
  take (Z.to_nat (default 20 (limit p)))
       (drop (Z.to_nat ((default 1 (page p) - 1) * default 20 (limit p))) (matching p d)).
Proof.
  unfold findAll. simpl. rewrite map_map. simpl. apply map_id.
Qed.

Lemma total_findAll (p : params) (d : db) :
  Pagination.total (pagination (findAll p d)) =
  match data (findAll p d) with
  | [] => 0
  | _ :: _ => Z.of_nat (List.length (matching p d))
  end.
Proof.
  rewrite data_findAll. unfold findAll. simpl.
  destruct (take _ _); reflexivity.
Qed.

Lemma matching_elem (p : params) (d : db) (r : row) :
  In r (matching p d) ↔ In r (rows d) ∧ whereClause p r = true.
Proof.
  unfold matching, select_where.
  rewrite <- filter_In. apply Permutation_in'; [reflexivity|].
  apply order_by_perm.
Qed.

Lemma data_findAll_elem (p : params) (d : db) (r : row) :
  In r (data (findAll p d)) → In r (rows d) ∧ whereClause p r = true.
Proof.
  rewrite data_findAll. intros H. apply matching_elem.
  apply list_elem_of_In in H. apply list_elem_of_In.
  eapply subseteq_drop, subseteq_take, H.
Qed.

(** On a page that holds at least one row, the reported total is the
    number of rows that match the filters. *)
Lemma findAll_total_on_nonempty_page (p : params) (d : db) :
  data (findAll p d) ≠ [] →
  Pagination.total (pagination (findAll p d)) = Z.of_nat (List.length (matching p d)).
Proof. rewrite total_findAll. destruct (data (findAll p d)); done. Qed.

(** On a page without rows the reported total is zero, however many rows
    match. *)
Lemma findAll_total_on_empty_page (p : params) (d : db) :
  data (findAll p d) = [] → Pagination.total (pagination (findAll p d)) = 0.
Proof. rewrite total_findAll. by intros ->. Qed.

Lemma Math_ceil_div_spec (count limit : Z) :
  0 < limit → Spec.is_ceil count limit (Math_ceil_div count limit).
Proof.
  intros Hl. unfold Spec.is_ceil, Math_ceil_div.
  pose proof (Z.div_mod (- count) limit ltac:(lia)) as Hdm.
  pose proof (Z.mod_pos_bound (- count) limit Hl). nia.
Qed.

Lemma Math_ceil_div_0 (limit : Z) : Math_ceil_div 0 limit = 0.
Proof. unfold Math_ceil_div. by destruct limit. Qed.

(** [totalPages] is the ceiling of the reported total over the limit, and
    zero when that total is zero. *)
Lemma findAll_totalPages (p : params) (d : db) :
  let pg := pagination (findAll p d) in
  0 < Pagination.limit pg →
  Spec.is_ceil (Pagination.total pg) (Pagination.limit pg) (Pagination.totalPages pg) ∧
  (Pagination.total pg = 0 → Pagination.totalPages pg = 0).
Proof.
  unfold findAll. cbn [pagination Pagination.limit Pagination.total Pagination.totalPages].
  intros Hl. split.
  - by apply Math_ceil_div_spec.
  - intros ->. apply Math_ceil_div_0.
Qed.

End Listing.

Section Pages.

Import SpeciesRepository.

Lemma windows_concat (L n : nat) (l : list row) :
  List.concat (map (λ i, take L (drop (i * L) l)) (seq 0 n)) = take (n * L) l.
Proof.
  induction n as [|n IH]; [reflexivity|].
  rewrite seq_S, map_app, concat_app, IH. simpl.
  rewrite app_nil_r, take_take_drop. f_equal. lia.
Qed.

Lemma matching_on_page (p : params) (n : Z) (d : db) :
  matching (Spec.on_page p n) d = matching p d.
Proof. reflexivity. Qed.

(** For one scan order of the table, pages [1 .. ceil(T / limit)] laid
    end to end are the [T] matching rows, each once and in the listing's
    order. *)
Lemma findAll_pages_concat (p : params) (d : db) :
  let L := default 20 (limit p) in
  let T := Z.of_nat (List.length (matching p d)) in
  0 < L →
  List.concat (map (λ i : nat, data (findAll (Spec.on_page p (Z.of_nat i + 1)) d))
              (seq 0 (Z.to_nat (Math_ceil_div T L))))
  = matching p d.
Proof.
  intros L T HL.
  pose proof (Math_ceil_div_spec T L HL) as [_ Hc].
  rewrite <- (take_ge (matching p d) (Z.to_nat (Math_ceil_div T L) * Z.to_nat L)%nat).
  - rewrite <- windows_concat. f_equal. apply map_ext. intros i.
    rewrite data_findAll, matching_on_page. simpl. fold L.
    do 2 f_equal. lia.
  - subst T. nia.
Qed.

Lemma matching_NoDup (p : params) (d : db) : NoDup (rows d) → NoDup (matching p d).
Proof.
  intros H. unfold matching. rewrite order_by_perm.
  unfold select_where. apply NoDup_ListNoDup, List.NoDup_filter, NoDup_ListNoDup, H.
Qed.

End Pages.

(** ** Claims about the listing *)

Section ListingClaims.

Import SpeciesRepository.

(** C4 (evaluation at the failing input).  One published record, page 2
    of size 1: one record matches the filters, yet [findAll] reports
    [total = 0] and [totalPages = 0], because the windowed count is read
    off the first row of a page that has no rows. *)
Theorem findAll_total_past_last_page :
  let d := Db [Sample.puma] 43 in
  let p := Params (Some 2) (Some 1) None None (Some "published") in
  List.length (matching p d) = 1%nat ∧
  data (findAll p d) = [] ∧
  Pagination.total (pagination (findAll p d)) = 0 ∧
  Pagination.totalPages (pagination (findAll p d)) = 0.
Proof. vm_compute. repeat split. Qed.

(** C7 (counterexample).  Two records created at the same instant, the
    one with the larger [id] first in scan order: the default listing
    returns them in that order, not in ascending [id]. *)
Lemma findAll_ties_not_by_id :
  ¬ Spec.ties_by_id (data (findAll Sample.all_params (Db [Sample.puma; Sample.huemul] 43))).
Proof.
  intros H.
  specialize (H 0%nat 1%nat Sample.puma Sample.huemul 42 7).
  assert (42 < 7) as Habs; [|lia].
  apply H; [lia | reflexivity ..].
Qed.

(** C7 (amended).  Every page of [findAll] is ordered by [createdAt]
    descending, most recently created first; the query names no second
    sort key. *)
Theorem findAll_created_desc (p : params) (d : db) :
  StronglySorted created_desc (data (findAll p d)).
Proof.
  rewrite data_findAll. apply sorted_window, order_by_sorted.
Qed.

(** C10.  A status outside [draft], [published], [archived] adds no
    condition.  The listing is the one obtained without a status: its
    page is the window of all stored rows that pass the other filters,
    whatever their status, ordered as usual; on the first page of a
    table that fits in one page every such row is returned (every
    stored row when no other filter is given), and on a page with rows
    the total counts them all.  Nothing is thrown and the result is not
    emptied. *)
Theorem findAll_unknown_status (p : params) (s : string) (d : db) :
  status p = Some s →
  includes statuses s = false →
  findAll p d = findAll (Spec.without_status p) d ∧
  data (findAll p d)
  = take (Z.to_nat (default 20 (limit p)))
      (drop (Z.to_nat ((default 1 (page p) - 1) * default 20 (limit p)))
         (order_by_created_desc
            (select_where (whereClause (Spec.without_status p)) (rows d)))) ∧
  (∀ r, In r (rows d) →
        whereClause (Spec.without_status p) r = true →
        default 1 (page p) = 1 →
        (length (rows d) ≤ Z.to_nat (default 20%Z (limit p)))%nat →
        In r (data (findAll p d))) ∧
  (∀ r, In r (rows d) →
        given (search p) = None → given (mainGroup p) = None →
        default 1 (page p) = 1 →
        (length (rows d) ≤ Z.to_nat (default 20%Z (limit p)))%nat →
        In r (data (findAll p d))) ∧
  (data (findAll p d) ≠ [] →
   Pagination.total (pagination (findAll p d))
   = Z.of_nat (length (select_where (whereClause (Spec.without_status p)) (rows d)))).
Proof.
  intros Hs Hin.
  assert (conditions p = conditions (Spec.without_status p)) as Hc.
  { unfold conditions, given. rewrite Hs.
    destruct (String.eqb s ""); [reflexivity|]. by rewrite Hin. }
  assert (matching p d
          = order_by_created_desc
              (select_where (whereClause (Spec.without_status p)) (rows d))) as Hm.
  { unfold matching, whereClause. by rewrite Hc. }
  assert (∀ r, In r (rows d) →
               whereClause (Spec.without_status p) r = true →
               default 1 (page p) = 1 →
               (length (rows d) ≤ Z.to_nat (default 20%Z (limit p)))%nat →
               In r (data (findAll p d))) as Hall.
  { intros r Hr Hw Hp Hl. rewrite data_findAll, Hp. simpl.
    rewrite take_ge.
    - apply matching_elem. split; [exact Hr|].
      unfold whereClause in *. by rewrite Hc.
    - rewrite length_drop, Hm, order_by_perm. unfold select_where.
      pose proof (List.filter_length_le (whereClause (Spec.without_status p)) (rows d)).
      lia. }
  split; [|split; [|split; [|split]]].
  - assert (matching p d = matching (Spec.without_status p) d) as Hm'
      by (unfold matching, whereClause; by rewrite Hc).
    unfold findAll. by rewrite Hm'.
  - by rewrite data_findAll, Hm.
  - exact Hall.
  - intros r Hr H1 H2. apply Hall; [exact Hr|].
    unfold whereClause, conditions, Spec.without_status.
    cbn [status mainGroup search]. by rewrite H1, H2.
  - intros Hne. rewrite (findAll_total_on_nonempty_page p d Hne), Hm.
    by rewrite order_by_perm.
Qed.

Lemma findAll_unknown_status_witness :
  (status Sample.misspelt_params = Some "publishd" ∧
   includes statuses "publishd" = false) ∧
  In Sample.huemul (data (findAll Sample.misspelt_params Sample.three_records)) ∧
  In Sample.condor (data (findAll Sample.misspelt_params Sample.three_records)) ∧
  Pagination.total (pagination (findAll Sample.misspelt_params Sample.three_records)) = 3.
Proof.
  split; [split; reflexivity|].
  destruct (findAll_unknown_status Sample.misspelt_params "publishd" Sample.three_records
              eq_refl eq_refl) as (_ & _ & _ & Hall & Htotal).
  assert (length (rows Sample.three_records)
          ≤ Z.to_nat (default 20%Z (limit Sample.misspelt_params)))%nat as Hl
    by (simpl; lia).
  assert (In Sample.huemul (data (findAll Sample.misspelt_params Sample.three_records)))
    as Hh.
  { apply Hall; [right; left; reflexivity | reflexivity | reflexivity | reflexivity | exact Hl]. }
  split; [exact Hh|]. split.
  - apply Hall;
      [right; right; left; reflexivity | reflexivity | reflexivity | reflexivity | exact Hl].
  - rewrite Htotal; [reflexivity|].
    intros Hnil. rewrite Hnil in Hh. destruct Hh.
Defined.

(** With a misspelt status the draft and the archived record are listed
    next to the published one. *)
Lemma findAll_unknown_status_lists_all :
  data (findAll Sample.misspelt_params Sample.three_records)
  = [Sample.puma; Sample.huemul; Sample.condor] ∧
  Pagination.total (pagination (findAll Sample.misspelt_params Sample.three_records)) = 3.
Proof. split; reflexivity. Qed.

End ListingClaims.

(** ** The draft/publish state machine *)

Section StateMachine.

Import SpeciesRepository.

Lemma has_id_true (id : Z) (r : row) : has_id id r = true ↔ r !! "id" = Some (JNum id).
Proof.
  unfold has_id, sql_eq_num. destruct (r !! "id") as [[]|]; try (split; done).
  rewrite Z.eqb_eq. split; congruence.
Qed.


Lemma select_by_id_None (id : Z) (d : db) (r : row) :
  select_by_id id d = None → In r (rows d) → has_id id r = false.
Proof.
  unfold select_by_id, select_where. intros H Hr.
  destruct (has_id id r) eqn:E; [|done].
  assert (In r (List.filter (has_id id) (rows d))) as Hin by (by apply filter_In).
  destruct (List.filter (has_id id) (rows d)); [destruct Hin | done].
Qed.

Lemma has_id_set_columns (id : Z) (values : object) (r : row) :
  Spec.keeps_id id values → has_id id r = true → has_id id (set_columns values r) = true.
Proof.
  intros Hk Hr. apply has_id_true in Hr. apply has_id_true.
  rewrite lookup_set_columns, Hr. simpl. by destruct Hk as [-> | ->].
Qed.

Lemma select_after_update (id : Z) (values : object) (d : db) :
  Spec.keeps_id id values →
  select_by_id id (Db (update_where (has_id id) values (rows d)) (id_seq d))
  = set_columns values <$> select_by_id id d.
Proof.
  intros Hk. unfold select_by_id, select_where. simpl.
  rewrite filter_update_where by (intros r; by apply has_id_set_columns).
  apply head_returning.
Qed.

Lemma returning_after_select (id : Z) (values : object) (d : db) :
  head (returning (has_id id) values (rows d)) = set_columns values <$> select_by_id id d.
Proof. apply head_returning. Qed.

Lemma updated_row_stored (id : Z) (values : object) (d : db) (r : row) :
  select_by_id id d = Some r →
  In (set_columns values r) (update_where (has_id id) values (rows d)).
Proof.
  intros H. apply head_filter_Some in H as [H1 H2].
  unfold update_where. apply in_map_iff. exists r. by rewrite H2.
Qed.

(** *** What the three [.set] objects hold *)

Lemma lookup_discardDraft_set (now : Z) (k : string) :
  discardDraft_set now !! k =
  if decide (k = "updatedAt") then Some (JDate now)
  else if decide (k = "draftCreatedAt") then Some JNull
  else if decide (k = "hasDraft") then Some (JBool false)
  else if decide (k = "draftData") then Some JNull
  else None.
Proof.
  unfold discardDraft_set.
  repeat (case_decide; [subst; by simplify_map_eq|]).
  by simplify_map_eq.
Qed.

Lemma lookup_publish_set (publishedAt updatedAt : Z) (k : string) :
  publish_set publishedAt updatedAt !! k =
  if decide (k = "updatedAt") then Some (JDate updatedAt)
  else if decide (k = "publishedAt") then Some (JDate publishedAt)
  else if decide (k = "status") then Some (JStr "published")
  else None.
Proof.
  unfold publish_set.
  repeat (case_decide; [subst; by simplify_map_eq|]).
  by simplify_map_eq.
Qed.

Lemma lookup_createDraft_set (t1 t2 : Z) (patch : object) (current : row) (k : string) :
  createDraft_set t1 t2 patch current !! k =
  if decide (k = "updatedAt") then Some (JDate t2)
  else if decide (k = "draftCreatedAt") then
    Some (default JNull (or_else (current !! "draftCreatedAt") (Some (JDate t1))))
  else if decide (k = "hasDraft") then Some (JBool true)
  else if decide (k = "draftData") then Some (JObj (patch ∪ Spec.pending current))
  else None.
Proof.
  unfold createDraft_set, Spec.pending.
  repeat (case_decide; [subst; by simplify_map_eq|]).
  by simplify_map_eq.
Qed.

Lemma lookup_updateData (tp tu : Z) (current : row) (k : string) :
  remove_undefined (updateData tp tu current) !! k =
  if decide (k = "updatedAt") then Some (JDate tu)
  else if decide (k = "publishedAt") then Some (JDate tp)
  else if decide (k = "status") then Some (JStr "published")
  else if decide (k = "draftCreatedAt") then Some JNull
  else if decide (k = "hasDraft") then Some (JBool false)
  else if decide (k = "draftData") then Some JNull
  else if decide (k = "richContent") then
    match spread (current !! "draftData") !! "richContent" with
    | Some v => Some v
    | None => current !! "richContent"
    end
  else spread (current !! "draftData") !! k.
Proof.
  unfold remove_undefined, updateData. rewrite lookup_omap.
  do 6 (case_decide as E; [rewrite E; by simplify_map_eq|];
        rewrite (lookup_insert_ne _ _ k) by done; clear E).
  case_decide as E.
  - rewrite E, lookup_insert_eq.
    by destruct (spread (current !! "draftData") !! "richContent").
  - rewrite lookup_insert_ne by done.
    rewrite lookup_fmap, lookup_delete_ne by done.
    by destruct (spread (current !! "draftData") !! k).
Qed.

End StateMachine.

(** ** [publish], branch by branch *)

Section Publish.

Import SpeciesRepository.

Lemma publish_absent (tp tu id : Z) (d : db) :
  select_by_id id d = None → publish tp tu id d = (Throw not_found, d).
Proof. unfold publish. by intros ->. Qed.

Lemma publish_with_draft (tp tu id : Z) (d : db) (current : row) :
  select_by_id id d = Some current →
  truthy (current !! "draftData") = true →
  let values := remove_undefined (updateData tp tu current) in
  let d' := Db (update_where (has_id id) values (rows d)) (id_seq d) in
  publish tp tu id d =
  (match select_by_id id d' with
   | Some _ => Ok (set_columns values current)
   | None => Throw (undefined_read "richContent")
   end, d').
Proof.
  intros Hc Ht. unfold publish. rewrite Hc, Ht.
  rewrite returning_after_select, Hc. simpl.
  by destruct (select_by_id id (Db _ _)).
Qed.

Lemma publish_never_published (tp tu id : Z) (d : db) (current : row) :
  select_by_id id d = Some current →
  truthy (current !! "draftData") = false →
  is_string (current !! "status") "draft" = true →
  publish tp tu id d =
  (Ok (set_columns (publish_set tp tu) current),
   Db (update_where (has_id id) (publish_set tp tu) (rows d)) (id_seq d)).
Proof.
  intros Hc Ht Hs. unfold publish. rewrite Hc, Ht, Hs.
  by rewrite returning_after_select, Hc.
Qed.

Lemma publish_nothing (tp tu id : Z) (d : db) (current : row) :
  select_by_id id d = Some current →
  truthy (current !! "draftData") = false →
  is_string (current !! "status") "draft" = false →
  publish tp tu id d = (Throw nothing_to_publish, d).
Proof. intros Hc Ht Hs. unfold publish. by rewrite Hc, Ht, Hs. Qed.

(** [publish] fails with "Species not found" exactly when no record has
    the id. *)
Lemma publish_not_found_iff (tp tu id : Z) (d : db) :
  fst (publish tp tu id d) = Throw not_found ↔ select_by_id id d = None.
Proof.
  split; [|intros H; by rewrite publish_absent].
  destruct (select_by_id id d) as [current|] eqn:Hc; [|done].
  destruct (truthy (current !! "draftData")) eqn:Ht.
  - rewrite (publish_with_draft _ _ _ _ _ Hc Ht). simpl.
    by destruct (select_by_id id (Db _ _)).
  - destruct (is_string (current !! "status") "draft") eqn:Hs.
    + by rewrite (publish_never_published _ _ _ _ _ Hc Ht Hs).
    + by rewrite (publish_nothing _ _ _ _ _ Hc Ht Hs).
Qed.

(** [publish] fails with "Nothing to publish" exactly when the record
    exists, holds no draft and is not in status [draft]. *)
Lemma publish_nothing_iff (tp tu id : Z) (d : db) :
  fst (publish tp tu id d) = Throw nothing_to_publish ↔
  ∃ current, select_by_id id d = Some current ∧
             truthy (current !! "draftData") = false ∧
             is_string (current !! "status") "draft" = false.
Proof.
  split.
  - destruct (select_by_id id d) as [current|] eqn:Hc;
      [|by rewrite publish_absent].
    destruct (truthy (current !! "draftData")) eqn:Ht.
    + rewrite (publish_with_draft _ _ _ _ _ Hc Ht). simpl.
      by destruct (select_by_id id (Db _ _)).
    + destruct (is_string (current !! "status") "draft") eqn:Hs.
      * by rewrite (publish_never_published _ _ _ _ _ Hc Ht Hs).
      * eauto.
  - intros (current & Hc & Ht & Hs). by rewrite (publish_nothing _ _ _ _ _ Hc Ht Hs).
Qed.

(** X19.  When the record has a draft, or is in status [draft], and the
    draft leaves the record's [id] alone, [publish] returns a record
    that is stored in the table it leaves. *)
Lemma publish_succeeds (tp tu id : Z) (d : db) (current : row) :
  select_by_id id d = Some current →
  truthy (current !! "draftData") = true ∨ is_string (current !! "status") "draft" = true →
  Spec.keeps_id id (Spec.pending current) →
  ∃ r', fst (publish tp tu id d) = Ok r' ∧ In r' (rows (snd (publish tp tu id d))).
Proof.
  intros Hc Hcase Hid.
  destruct (truthy (current !! "draftData")) eqn:Ht.
  - rewrite (publish_with_draft _ _ _ _ _ Hc Ht). simpl.
    rewrite select_after_update, Hc.
    + simpl. eexists; split; [reflexivity|]. by apply updated_row_stored.
    + unfold Spec.pending, or_else in Hid. rewrite Ht in Hid.
      unfold Spec.keeps_id. by rewrite lookup_updateData.
  - destruct Hcase as [|Hs]; [done|].
    rewrite (publish_never_published _ _ _ _ _ Hc Ht Hs). simpl.
    eexists; split; [reflexivity|]. by apply updated_row_stored.
Qed.

(** X15.  [publish] is not idempotent: after a draft-backed publish, a
    second publish without a new draft throws "Nothing to publish". *)
Lemma publish_twice (tp tu tp' tu' id : Z) (d : db) (current : row) (draft : object) :
  select_by_id id d = Some current →
  current !! "draftData" = Some (JObj draft) →
  is_Some (current !! "status") →
  Spec.keeps_id id draft →
  fst (publish tp' tu' id (snd (publish tp tu id d))) = Throw nothing_to_publish.
Proof.
  intros Hc Hd [st Hst] Hid.
  assert (truthy (current !! "draftData") = true) as Ht by (by rewrite Hd).
  rewrite (publish_with_draft _ _ _ _ _ Hc Ht). simpl.
  apply publish_nothing_iff.
  exists (set_columns (remove_undefined (updateData tp tu current)) current).
  split; [|split].
  - rewrite select_after_update, Hc; [done|].
    unfold Spec.keeps_id. rewrite lookup_updateData. simpl. by rewrite Hd.
  - by rewrite lookup_set_columns, Hd, lookup_updateData.
  - by rewrite lookup_set_columns, Hst, lookup_updateData.
Qed.

(** C6 (evaluation at the failing input).  Record 42 is published and
    carries the draft [{ id: 43 }].  [publish(42)] applies the update,
    which moves the record to id 43, and then throws a [TypeError] from
    reading [verification.richContent] off the re-selected row, which is
    [undefined]: neither of the two documented failures, and not the
    post-publish record. *)
Theorem publish_throws_after_renumbering_draft :
  fst (publish 200 200 42 (Db [Sample.puma_renumbered] 43))
  = Throw (TypeError "Cannot read properties of undefined (reading 'richContent')") ∧
  select_by_id 42 (snd (publish 200 200 42 (Db [Sample.puma_renumbered] 43))) = None ∧
  (λ r : row, (r !! "status", r !! "draftData")) <$>
    select_by_id 43 (snd (publish 200 200 42 (Db [Sample.puma_renumbered] 43)))
  = Some (Some (JStr "published"), Some JNull).
Proof. vm_compute. repeat split. Qed.

End Publish.

(** ** Claims about publishing and discarding *)

Section DraftClaims.

Import SpeciesRepository.

Lemma published_value_content (tp tu : Z) (draft : object) (k : string) (old : json) :
  k ∉ Spec.lifecycle → Spec.published_value tp tu draft k old = default old (draft !! k).
Proof.
  intros H. unfold Spec.published_value.
  assert (∀ x, x ∈ Spec.lifecycle → k ≠ x) as Hne by (intros x Hx ->; done).
  rewrite !decide_False; [done|apply Hne; unfold Spec.lifecycle; set_solver..].
Qed.

Lemma published_row_lookup (tp tu : Z) (current : row) (k : string) :
  set_columns (remove_undefined (updateData tp tu current)) current !! k
  = Spec.published_value tp tu (spread (current !! "draftData")) k <$> current !! k.
Proof.
  rewrite lookup_set_columns, lookup_updateData.
  destruct (current !! k) as [old|] eqn:E; [simpl; f_equal|done].
  unfold Spec.published_value.
  repeat case_decide; subst; try done.
  rewrite E. by destruct (spread (current !! "draftData") !! "richContent").
Qed.

(** C2.  For an existing record whose [draftData] is present, [publish]
    performs one update of the row; in the stored record every column
    named by the draft holds the draft's value (an explicit [null]
    included), [status] is [published], [publishedAt] and [updatedAt] are
    set, [draftData], [hasDraft] and [draftCreatedAt] are cleared, and
    every other column keeps its value. *)
Theorem publish_applies_draft (tp tu id : Z) (d : db) (current : row) (draft : object) :
  select_by_id id d = Some current →
  current !! "draftData" = Some (JObj draft) →
  let values := remove_undefined (updateData tp tu current) in
  let stored := set_columns values current in
  snd (publish tp tu id d) = Db (update_where (has_id id) values (rows d)) (id_seq d) ∧
  In stored (rows (snd (publish tp tu id d))) ∧
  (∀ k, stored !! k = Spec.published_value tp tu draft k <$> current !! k) ∧
  (∀ k, k ∉ Spec.lifecycle → draft !! k = Some JNull → is_Some (current !! k) →
        stored !! k = Some JNull) ∧
  (∀ r', fst (publish tp tu id d) = Ok r' → r' = stored).
Proof.
  intros Hc Hd values stored.
  assert (truthy (current !! "draftData") = true) as Ht by (by rewrite Hd).
  assert (spread (current !! "draftData") = draft) as Hs by (by rewrite Hd).
  rewrite (publish_with_draft _ _ _ _ _ Hc Ht). simpl. fold values. fold stored.
  assert (∀ k, stored !! k = Spec.published_value tp tu draft k <$> current !! k) as Hk.
  { intros k. unfold stored, values. by rewrite published_row_lookup, Hs. }
  repeat split.
  - by apply updated_row_stored.
  - exact Hk.
  - intros k Hlife Hnull [old Hold]. rewrite Hk, Hold. simpl. f_equal.
    by rewrite published_value_content, Hnull.
  - intros r'. destruct (select_by_id id (Db _ _)); by intros [= <-].
Qed.

Lemma publish_applies_draft_witness :
  (select_by_id 42 (Db [Sample.puma_renamed] 43) = Some Sample.puma_renamed ∧
   Sample.puma_renamed !! "draftData"
   = Some (JObj {[ "commonName" := JStr "Puma concolor" ]})) ∧
  set_columns (remove_undefined (updateData 200 201 Sample.puma_renamed)) Sample.puma_renamed
    !! "commonName"
  = Spec.published_value 200 201 {[ "commonName" := JStr "Puma concolor" ]} "commonName"
      <$> Sample.puma_renamed !! "commonName".
Proof.
  split; [split; reflexivity|].
  apply (publish_applies_draft 200 201 42 (Db [Sample.puma_renamed] 43) Sample.puma_renamed
           {[ "commonName" := JStr "Puma concolor" ]}); reflexivity.
Defined.

(** Record 42 of the example: after publishing the rename, the stored
    name is the draft's and no draft is pending. *)
Lemma publish_puma_renamed :
  (λ r : row, (r !! "commonName", r !! "status", r !! "hasDraft", r !! "draftData")) <$>
    select_by_id 42 (snd (publish 200 201 42 (Db [Sample.puma_renamed] 43)))
  = Some (Some (JStr "Puma concolor"), Some (JStr "published"),
          Some (JBool false), Some JNull).
Proof. vm_compute. reflexivity. Qed.

(** *** The invariant [hasDraft == (draftData != null)] *)

Lemma update_where_Forall (P : row → Prop) (c : row → bool) (values : object) (t : list row) :
  Forall P t →
  (∀ r, P r → c r = true → P (set_columns values r)) →
  Forall P (update_where c values t).
Proof.
  intros Ht Hr. unfold update_where. apply Forall_fmap.
  eapply Forall_impl; [exact Ht|].
  intros r HP. simpl. destruct (c r) eqn:E; auto.
Qed.

Lemma invariant_set_both (values : object) (r : row) (v : json) :
  Spec.draft_invariant r →
  values !! "draftData" = Some v →
  values !! "hasDraft" = Some (JBool (Spec.non_null (Some v))) →
  Spec.draft_invariant (set_columns values r).
Proof.
  intros [[dd Hdd] Hhd] Hv Hh. unfold Spec.draft_invariant.
  rewrite !lookup_set_columns, Hdd, Hhd, Hv, Hh. simpl. split; [by eexists|done].
Qed.

Lemma invariant_set_neither (values : object) (r : row) :
  Spec.draft_invariant r →
  values !! "draftData" = None →
  values !! "hasDraft" = None →
  Spec.draft_invariant (set_columns values r).
Proof.
  intros [[dd Hdd] Hhd] Hv Hh. unfold Spec.draft_invariant.
  rewrite !lookup_set_columns, Hhd, Hdd, Hv, Hh. simpl. split; [by eexists|done].
Qed.

(** C3 (counterexample).  [update(42, { hasDraft: true })] on a record
    without draft stores [hasDraft = true] next to [draftData = null]. *)
Lemma update_breaks_draft_invariant :
  Forall Spec.draft_invariant (rows (Db [Sample.puma] 43)) ∧
  ¬ Forall Spec.draft_invariant
      (rows (snd (update 200 42 {[ "hasDraft" := JBool true ]} (Db [Sample.puma] 43)))).
Proof.
  split.
  - repeat constructor. by eexists.
  - intros H. apply Forall_cons_1 in H as [[_ H] _]. vm_compute in H. discriminate.
Qed.

(** C3 (amended).  [createDraft], [discardDraft] and [publish] keep
    [hasDraft == (draftData != null)] on every stored record; [update]
    and [create] keep it when their data names neither [draftData] nor
    [hasDraft] ([create] from column defaults that satisfy it). *)
Theorem draft_invariant_kept (defaults : row) (d : db) :
  Forall Spec.draft_invariant (rows d) →
  (∀ t1 t2 id patch,
     Forall Spec.draft_invariant (rows (snd (createDraft t1 t2 id patch d)))) ∧
  (∀ now id, Forall Spec.draft_invariant (rows (snd (discardDraft now id d)))) ∧
  (∀ tp tu id, Forall Spec.draft_invariant (rows (snd (publish tp tu id d)))) ∧
  (∀ now id data,
     data !! "draftData" = None → data !! "hasDraft" = None →
     Forall Spec.draft_invariant (rows (snd (update now id data d)))) ∧
  (∀ now data,
     Spec.draft_invariant defaults →
     data !! "draftData" = None → data !! "hasDraft" = None →
     Forall Spec.draft_invariant (rows (snd (create defaults now data d)))).
Proof.
  intros Hd. repeat split.
  - intros t1 t2 id patch. unfold createDraft.
    destruct (select_by_id id d) as [current|]; [simpl|done].
    apply update_where_Forall; [done|]. intros r Hr _.
    eapply invariant_set_both; [done| |]; by rewrite lookup_createDraft_set.
  - intros now id. simpl.
    apply update_where_Forall; [done|]. intros r Hr _.
    eapply invariant_set_both; [done| |]; by rewrite lookup_discardDraft_set.
  - intros tp tu id.
    destruct (select_by_id id d) as [current|] eqn:Hc; [|by rewrite publish_absent].
    destruct (truthy (current !! "draftData")) eqn:Ht.
    + rewrite (publish_with_draft _ _ _ _ _ Hc Ht). simpl.
      apply update_where_Forall; [done|]. intros r Hr _.
      eapply invariant_set_both; [done| |]; by rewrite lookup_updateData.
    + destruct (is_string (current !! "status") "draft") eqn:Hs.
      * rewrite (publish_never_published _ _ _ _ _ Hc Ht Hs). simpl.
        apply update_where_Forall; [done|]. intros r Hr _.
        apply invariant_set_neither; [done| |]; by rewrite lookup_publish_set.
      * by rewrite (publish_nothing _ _ _ _ _ Hc Ht Hs).
  - intros now id data H1 H2. simpl.
    apply update_where_Forall; [done|]. intros r Hr _.
    apply invariant_set_neither; [done| |]; by rewrite lookup_insert_ne.
  - intros now data Hdef H1 H2. simpl.
    apply Forall_app. split; [done|]. constructor; [|constructor].
    apply invariant_set_neither; [|done..].
    destruct Hdef as [Hdd Hhd]. unfold Spec.draft_invariant, fresh_row.
    by rewrite !lookup_insert_ne.
Qed.

Lemma draft_invariant_kept_witness :
  Forall Spec.draft_invariant (rows (Db [Sample.puma_renamed] 43)) ∧
  Forall Spec.draft_invariant
    (rows (snd (createDraft 200 201 42 {[ "commonName" := JNull ]}
                  (Db [Sample.puma_renamed] 43)))).
Proof.
  assert (Forall Spec.draft_invariant (rows (Db [Sample.puma_renamed] 43))) as H.
  { repeat constructor. by eexists. }
  split; [exact H|].
  apply (proj1 (draft_invariant_kept Sample.defaults (Db [Sample.puma_renamed] 43) H)).
Defined.

End DraftClaims.

(** ** Claims about drafts *)

Section DraftMerge.

Import SpeciesRepository.

Lemma has_id_untouched (id : Z) (values : object) (r : row) :
  values !! "id" = None → has_id id (set_columns values r) = has_id id r.
Proof.
  intros H. unfold has_id. rewrite lookup_set_columns, H.
  by destruct (r !! "id").
Qed.

(** [createDraft] on an existing record: the record it returns is the one
    stored under the id; its [draftData] is the patch laid over the
    pending draft, and the columns outside the draft keep their values. *)
Lemma createDraft_existing (t1 t2 id : Z) (patch : object) (d : db) (current : row) :
  select_by_id id d = Some current →
  let stored := set_columns (createDraft_set t1 t2 patch current) current in
  fst (createDraft t1 t2 id patch d) = Ok (Some stored) ∧
  select_by_id id (snd (createDraft t1 t2 id patch d)) = Some stored ∧
  (is_Some (current !! "draftData") →
   stored !! "draftData" = Some (JObj (patch ∪ Spec.pending current))) ∧
  (∀ k, k ∉ "updatedAt" :: Spec.draft_columns → stored !! k = current !! k).
Proof.
  intros Hc stored. unfold createDraft. rewrite Hc. simpl.
  rewrite returning_after_select, Hc. split; [done|]. split; [|split].
  - rewrite select_after_update, Hc; [done|].
    left. by rewrite lookup_createDraft_set.
  - intros [dd Hdd]. unfold stored.
    by rewrite lookup_set_columns, Hdd, lookup_createDraft_set.
  - intros k Hk. unfold stored. rewrite lookup_set_columns, lookup_createDraft_set.
    unfold Spec.draft_columns in Hk.
    repeat (case_decide; [subst; exfalso; apply Hk; set_solver|]).
    by destruct (current !! k).
Qed.

Lemma pending_object (r : row) (m : object) :
  r !! "draftData" = Some (JObj m) → Spec.pending r = m.
Proof. intros H. unfold Spec.pending. by rewrite H. Qed.

(** C5.  On an existing record, [createDraft({a: va})], then
    [createDraft({b: vb})], then [publish()] return and store a published
    record with [a = va] and [b = vb]; every other content column holds
    the value the earlier draft gave it, and its prior published value
    when no draft named it. *)
Theorem drafts_merge_then_publish
    (t1 t2 t3 t4 tp tu id : Z) (d : db) (current : row) (a b : string) (va vb : json) :
  select_by_id id d = Some current →
  is_Some (current !! "draftData") →
  is_Some (current !! "status") →
  Spec.pending current !! "id" = None →
  a ≠ b →
  a ∉ "id" :: Spec.lifecycle →
  b ∉ "id" :: Spec.lifecycle →
  is_Some (current !! a) →
  is_Some (current !! b) →
  let d1 := snd (createDraft t1 t2 id {[ a := va ]} d) in
  let d2 := snd (createDraft t3 t4 id {[ b := vb ]} d1) in
  ∃ r',
    fst (publish tp tu id d2) = Ok r' ∧
    select_by_id id (snd (publish tp tu id d2)) = Some r' ∧
    r' !! "status" = Some (JStr "published") ∧
    r' !! a = Some va ∧
    r' !! b = Some vb ∧
    (∀ k, k ≠ a → k ≠ b → k ∉ Spec.lifecycle →
          r' !! k = (λ old, default old (Spec.pending current !! k)) <$> current !! k) ∧
    (∀ k, k ≠ a → k ≠ b → k ∉ Spec.lifecycle → Spec.pending current !! k = None →
          r' !! k = current !! k).
Proof.
  intros Hc Hdd [st Hst] Hid Hab Ha Hb [oa Hoa] [ob Hob] d1 d2.
  apply not_elem_of_cons in Ha as [Haid Ha], Hb as [Hbid Hb].
  destruct (createDraft_existing t1 t2 id {[ a := va ]} d current Hc)
    as (_ & Hc1 & Hd1 & Hk1).
  specialize (Hd1 Hdd). fold d1 in Hc1.
  set (c1 := set_columns (createDraft_set t1 t2 {[ a := va ]} current) current) in *.
  destruct (createDraft_existing t3 t4 id {[ b := vb ]} d1 c1 Hc1)
    as (_ & Hc2 & Hd2 & Hk2).
  specialize (Hd2 (ex_intro _ _ Hd1)). fold d2 in Hc2.
  set (c2 := set_columns (createDraft_set t3 t4 {[ b := vb ]} c1) c1) in *.
  rewrite (pending_object _ _ Hd1) in Hd2.
  set (draft := {[ b := vb ]} ∪ ({[ a := va ]} ∪ Spec.pending current)) in *.
  assert (truthy (c2 !! "draftData") = true) as Ht by (by rewrite Hd2).
  assert (∀ k, k ∉ "updatedAt" :: Spec.draft_columns → c2 !! k = current !! k) as Hkd.
  { intros k Hk. by rewrite Hk2, Hk1. }
  assert (∀ k, k ∉ Spec.lifecycle → c2 !! k = current !! k) as Hk.
  { intros k Hk. apply Hkd.
    intros Hin. apply Hk. unfold Spec.lifecycle, Spec.draft_columns in *.
    repeat (apply elem_of_cons in Hin as [->|Hin]; [by repeat constructor|]).
    by apply elem_of_nil in Hin. }
  assert (draft !! b = Some vb) as Hdb.
  { unfold draft. apply lookup_union_Some_l, lookup_singleton_eq. }
  assert (draft !! a = Some va) as Hda.
  { unfold draft. rewrite lookup_union_r by (by apply lookup_singleton_ne).
    apply lookup_union_Some_l, lookup_singleton_eq. }
  assert (∀ k, k ≠ a → k ≠ b → draft !! k = Spec.pending current !! k) as Hdk.
  { intros k Hka Hkb. unfold draft.
    by rewrite !lookup_union_r by (by apply lookup_singleton_ne). }
  rewrite (publish_with_draft _ _ _ _ _ Hc2 Ht). simpl.
  rewrite select_after_update, Hc2; cycle 1.
  { left. rewrite lookup_updateData. simpl. rewrite Hd2. simpl.
    by rewrite Hdk, Hid. }
  simpl. eexists. split; [reflexivity|]. split; [reflexivity|].
  assert (∀ k, k ∉ Spec.lifecycle →
               set_columns (remove_undefined (updateData tp tu c2)) c2 !! k
               = (λ old, default old (draft !! k)) <$> current !! k) as Hcontent.
  { intros k Hlife. rewrite published_row_lookup, Hd2. simpl.
    rewrite (Hk k Hlife).
    destruct (current !! k) as [old|]; [simpl; f_equal|done].
    by apply published_value_content. }
  split; [|split; [|split; [|split]]].
  - rewrite published_row_lookup, (Hkd "status"), Hst; [done|].
    unfold Spec.draft_columns. intros Hin.
    repeat (apply elem_of_cons in Hin as [?|Hin]; [done|]).
    by apply elem_of_nil in Hin.
  - by rewrite Hcontent, Hoa, Hda.
  - by rewrite Hcontent, Hob, Hdb.
  - intros k Hka Hkb Hlife. by rewrite Hcontent, Hdk.
  - intros k Hka Hkb Hlife Hnone. rewrite Hcontent, Hdk, Hnone by done.
    by destruct (current !! k).
Qed.

End DraftMerge.

Section DraftMergeWitness.

Import SpeciesRepository.

Lemma drafts_merge_then_publish_witness :
  (select_by_id 42 (Db [Sample.puma] 43) = Some Sample.puma ∧
   Spec.pending Sample.puma !! "id" = None ∧
   "commonName" ≠ "scientificName") ∧
  ∃ r',
    fst (publish 205 206 42
           (snd (createDraft 203 204 42 {[ "scientificName" := JStr "Puma concolor" ]}
              (snd (createDraft 201 202 42 {[ "commonName" := JStr "Cougar" ]}
                 (Db [Sample.puma] 43))))))
    = Ok r' ∧
    r' !! "commonName" = Some (JStr "Cougar") ∧
    r' !! "scientificName" = Some (JStr "Puma concolor").
Proof.
  split; [repeat split; done|].
  destruct (drafts_merge_then_publish 201 202 203 204 205 206 42 (Db [Sample.puma] 43)
              Sample.puma "commonName" "scientificName"
              (JStr "Cougar") (JStr "Puma concolor"))
    as (r' & Hok & _ & _ & Ha & Hb & _).
  - reflexivity.
  - by eexists.
  - by eexists.
  - reflexivity.
  - done.
  - unfold Spec.lifecycle. intros Hin.
    repeat (apply elem_of_cons in Hin as [?|Hin]; [done|]).
    by apply elem_of_nil in Hin.
  - unfold Spec.lifecycle. intros Hin.
    repeat (apply elem_of_cons in Hin as [?|Hin]; [done|]).
    by apply elem_of_nil in Hin.
  - by eexists.
  - by eexists.
  - exists r'. repeat split; assumption.
Defined.

End DraftMergeWitness.

(** ** [discardDraft] *)

Section Discard.

Import SpeciesRepository.

Lemma discard_twice_row (t1 t2 : Z) (r : row) :
  set_columns (discardDraft_set t2) (set_columns (discardDraft_set t1) r)
  = set_columns (discardDraft_set t2) r.
Proof.
  apply map_eq. intros k. rewrite !lookup_set_columns.
  destruct (r !! k) as [old|]; [simpl; f_equal|done].
  rewrite !lookup_discardDraft_set. by repeat case_decide.
Qed.

Lemma discard_twice_rows (t1 t2 id : Z) (t : list row) :
  update_where (has_id id) (discardDraft_set t2)
    (update_where (has_id id) (discardDraft_set t1) t)
  = update_where (has_id id) (discardDraft_set t2) t.
Proof.
  unfold update_where. rewrite map_map. apply map_ext. intros r.
  destruct (has_id id r) eqn:E.
  - rewrite has_id_untouched, E by done. apply discard_twice_row.
  - by rewrite E.
Qed.

Lemma discard_row_same_except (t1 t2 : Z) (r : row) :
  Spec.same_except "updatedAt"
    (set_columns (discardDraft_set t2) r) (set_columns (discardDraft_set t1) r).
Proof.
  intros k Hk. rewrite !lookup_set_columns, !lookup_discardDraft_set.
  by destruct (decide (k = "updatedAt")).
Qed.

Lemma discard_row_content (now : Z) (r : row) (k : string) :
  k ∉ "updatedAt" :: Spec.draft_columns →
  set_columns (discardDraft_set now) r !! k = r !! k.
Proof.
  intros Hk. rewrite lookup_set_columns, lookup_discardDraft_set.
  assert (∀ x, x ∈ "updatedAt" :: Spec.draft_columns → k ≠ x) as Hne
    by (intros x Hx ->; done).
  destruct (r !! k) as [old|]; [simpl; f_equal|done].
  by rewrite !decide_False by (apply Hne; unfold Spec.draft_columns; set_solver).
Qed.

Lemma discard_row_no_draft (now : Z) (r : row) :
  Spec.no_draft r → Spec.same_except "updatedAt" (set_columns (discardDraft_set now) r) r.
Proof.
  intros (H1 & H2 & H3) k Hk. rewrite lookup_set_columns, lookup_discardDraft_set.
  destruct (decide (k = "updatedAt")) as [|_]; [done|].
  destruct (decide (k = "draftCreatedAt")) as [->|_]; [by rewrite H3|].
  destruct (decide (k = "hasDraft")) as [->|_]; [by rewrite H2|].
  destruct (decide (k = "draftData")) as [->|_]; [by rewrite H1|].
  by destruct (r !! k).
Qed.

(** C8 (counterexample).  The second [discardDraft] stamps [updatedAt]
    again, so two calls do not leave the state of one call; and on a
    record without draft a call is not a no-op. *)
Lemma discardDraft_twice_differs :
  snd (discardDraft 300 42 (snd (discardDraft 200 42 (Db [Sample.puma_renamed] 43))))
  ≠ snd (discardDraft 200 42 (Db [Sample.puma_renamed] 43)) ∧
  snd (discardDraft 200 42 (Db [Sample.puma] 43)) ≠ Db [Sample.puma] 43.
Proof.
  split; intros H;
    apply (f_equal (λ d, select_by_id 42 d ≫= (.!! "updatedAt"))) in H;
    vm_compute in H; discriminate.
Qed.

(** C8 (amended).  [discardDraft] is idempotent up to [updatedAt]: two
    calls in a row leave the state of the second call alone, which
    differs from the state after the first in no column but [updatedAt];
    a call never touches a column outside the draft columns and
    [updatedAt], and on a record without draft it changes [updatedAt]
    only; it returns the updated record, or [undefined] for an unknown
    id, and never throws. *)
Theorem discardDraft_idempotent_up_to_updatedAt (t1 t2 id : Z) (d : db) :
  snd (discardDraft t2 id (snd (discardDraft t1 id d))) = snd (discardDraft t2 id d) ∧
  Forall2 (Spec.same_except "updatedAt")
    (rows (snd (discardDraft t2 id (snd (discardDraft t1 id d)))))
    (rows (snd (discardDraft t1 id d))) ∧
  Forall2 (λ r r', (∀ k, k ∉ "updatedAt" :: Spec.draft_columns → r' !! k = r !! k) ∧
                   (Spec.no_draft r → Spec.same_except "updatedAt" r' r))
    (rows d) (rows (snd (discardDraft t1 id d))) ∧
  fst (discardDraft t1 id d) = set_columns (discardDraft_set t1) <$> select_by_id id d.
Proof.
  unfold discardDraft. simpl. split; [|split; [|split]].
  - by rewrite discard_twice_rows.
  - rewrite discard_twice_rows. unfold update_where.
    apply Forall2_fmap, Forall_Forall2_diag, Forall_forall. intros r _.
    destruct (has_id id r); [apply discard_row_same_except | by intros k].
  - unfold update_where. apply Forall2_fmap_r, Forall_Forall2_diag, Forall_forall.
    intros r _. unfold compose. destruct (has_id id r).
    + split; [intros k; apply discard_row_content | apply discard_row_no_draft].
    + split; [done | by intros _ k].
  - apply returning_after_select.
Qed.

End Discard.

(** ** Public reads *)

Section PublicReads.

Import SpeciesRepository.





(** Record 42 of the example while its rename is pending: the public
    listing still shows the published name. *)
Lemma pending_rename_not_shown :
  (.!! "commonName") <$>
    data (findAll Sample.published_params (Db [Sample.puma_renamed] 43))
  = [Some (JStr "Puma")].
Proof. vm_compute. reflexivity. Qed.

End PublicReads.

(** ** [UsersService.update]: who may change a role *)

Section RoleChange.

Context {LocalStore Clerk : Type}.
Context (findById : LocalStore → Z → option UsersService.user).
Context (findByClerkId : LocalStore → string → option UsersService.user).
Context (repository_update :
           LocalStore → Z → object → LocalStore * option UsersService.user).
Context (getUser : Clerk → string → outcome jsval).
Context (updateUser : Clerk → string → object → outcome Clerk).

Abbreviation service_update :=
  (UsersService.update LocalStore findById findByClerkId repository_update
     Clerk getUser updateUser).

(** C9 (amended).  For an existing target user and an update that
    carries a role: the call fails with [ForbiddenException], leaving the
    store as it was, when the target is the caller or the caller's role
    is not [admin]; otherwise it returns what the repository's update
    returns and leaves the store that update produced, whatever the
    identity provider answers. *)
Theorem update_role_change
    (target : Z) (dto : object) (currentUserId currentUserRole : string)
    (st : LocalStore) (ck : Clerk) (u : UsersService.user) :
  findById st target = Some u →
  truthy (dto !! "role") = true →
  (UsersService.clerkId u = currentUserId ∨ currentUserRole ≠ "admin" →
   ∃ message,
     service_update target dto currentUserId currentUserRole st ck
     = (Throw (ForbiddenException message), (st, ck))) ∧
  (UsersService.clerkId u ≠ currentUserId → currentUserRole = "admin" →
   fst (service_update target dto currentUserId currentUserRole st ck)
   = Ok (snd (repository_update st target dto)) ∧
   fst (snd (service_update target dto currentUserId currentUserRole st ck))
   = fst (repository_update st target dto)).
Proof.
  intros Hu Hrole. unfold UsersService.update. rewrite Hu, Hrole.
  split.
  - intros [Hself | Hadmin].
    + apply String.eqb_eq in Hself. rewrite Hself. simpl. eauto.
    + apply String.eqb_neq in Hadmin. rewrite Hadmin.
      destruct (String.eqb (UsersService.clerkId u) currentUserId); simpl; eauto.
  - intros Hother ->. apply String.eqb_neq in Hother. rewrite Hother. simpl.
    by destruct (repository_update st target dto).
Qed.

End RoleChange.

Section RoleChangeExamples.

(** C9 (counterexample).  A caller who is not an admin asks for a role
    change on user 5, who does not exist: the call fails with
    [NotFoundException], not with [ForbiddenException]. *)
Lemma update_role_of_unknown_user :
  Sample.service_update 5 {[ "role" := JStr "admin" ]} "user_editor" "species_editor"
    [Sample.editor; Sample.admin] ∅
  = (Throw (NotFoundException "User with ID 5 not found"),
     ([Sample.editor; Sample.admin], ∅)).
Proof. vm_compute. reflexivity. Qed.

Lemma update_role_change_witness :
  (Sample.users_findById [Sample.editor; Sample.admin] 1 = Some Sample.editor ∧
   truthy (({[ "role" := JStr "content_editor" ]} : object) !! "role") = true ∧
   UsersService.clerkId Sample.editor ≠ "user_admin") ∧
  fst (Sample.service_update 1 {[ "role" := JStr "content_editor" ]} "user_admin" "admin"
         [Sample.editor; Sample.admin] ∅)
  = Ok (snd (Sample.users_update [Sample.editor; Sample.admin] 1
               {[ "role" := JStr "content_editor" ]})).
Proof.
  split; [repeat split; done|].
  apply (update_role_change Sample.users_findById Sample.users_findByClerkId
           Sample.users_update Sample.clerk_getUser Sample.clerk_updateUser
           1 {[ "role" := JStr "content_editor" ]} "user_admin" "admin"
           [Sample.editor; Sample.admin] ∅ Sample.editor); done.
Defined.

End RoleChangeExamples.

(** * Further properties of the repositories *)

(** ** Listing *)

Section ListingExtras.

Import SpeciesRepository.

Lemma desc_le_antisym (a b : option Z) :
  desc_le a b = true → desc_le b a = true → a = b.
Proof.
  destruct a, b; simpl; try done.
  rewrite !Z.leb_le. intros. f_equal. lia.
Qed.

Lemma filter_perm (f : row → bool) (l1 l2 : list row) :
  l1 ≡ₚ l2 → List.filter f l1 ≡ₚ List.filter f l2.
Proof.
  induction 1 as [|x l1 l2 _ IH|x y l|l1 l2 l3 _ IH1 _ IH2]; simpl.
  - done.
  - destruct (f x); by rewrite IH.
  - destruct (f x), (f y); try done. apply Permutation_swap.
  - by rewrite IH1.
Qed.

(** Without ties in [createdAt] the order of a query does not depend on
    the order in which the store scans the table. *)
Lemma matching_scan_order (p : params) (d d' : db) :
  Spec.no_ties (rows d) → rows d' ≡ₚ rows d → matching p d' = matching p d.
Proof.
  intros Hties Hperm. unfold matching, select_where.
  apply (StronglySorted_unique_strong created_desc); try apply order_by_sorted.
  - intros x1 x2 H1 H2 H12 H21.
    apply list_elem_of_In in H1, H2.
    rewrite order_by_perm in H1, H2.
    apply filter_In in H1 as [H1 _], H2 as [H2 _].
    apply Hties; [|exact H2|by apply desc_le_antisym].
    apply list_elem_of_In. rewrite <- Hperm. by apply list_elem_of_In.
  - rewrite !order_by_perm. by apply filter_perm.
Qed.

(** X1.  On a table without duplicate rows in which no two records share
    a creation time, and for a positive limit, pages [1 .. totalPages]
    of [findAll] laid end to end are exactly the rows that pass the
    filters, each such row once and most recently created first,
    whatever order the store scans the table in for each page query. *)
Theorem findAll_pages_cover (p : params) (d : db) (scan : nat → db) :
  0 < default 20 (limit p) →
  NoDup (rows d) →
  Spec.no_ties (rows d) →
  (∀ i, rows (scan i) ≡ₚ rows d) →
  let pages :=
    List.concat
      (map (λ i : nat, data (findAll (Spec.on_page p (Z.of_nat i + 1)) (scan i)))
           (seq 0 (Z.to_nat (Math_ceil_div (Z.of_nat (length (matching p d)))
                                           (default 20 (limit p)))))) in
  pages = matching p d ∧
  NoDup pages ∧
  ∀ r, In r pages ↔ In r (rows d) ∧ whereClause p r = true.
Proof.
  intros HL Hnd Hties Hscan pages.
  assert (pages = matching p d) as ->.
  { unfold pages. rewrite <- (findAll_pages_concat p d HL) at 2.
    f_equal. apply map_ext. intros i.
    rewrite !data_findAll, !matching_on_page.
    by rewrite (matching_scan_order p d (scan i) Hties (Hscan i)). }
  split; [done|]. split; [by apply matching_NoDup | apply matching_elem].
Qed.

Lemma sample_two_no_ties : Spec.no_ties (rows Sample.two_records).
Proof.
  intros r1 r2 [<-|[<-|[]]] [<-|[<-|[]]] H; try reflexivity; discriminate H.
Qed.

Lemma sample_two_distinct : NoDup (rows Sample.two_records).
Proof.
  assert (Sample.puma ≠ Sample.condor) as Hne.
  { intros H. apply (f_equal (.!! "id")) in H. discriminate H. }
  apply NoDup_cons. split; [by rewrite not_elem_of_cons; split; [|apply not_elem_of_nil]|].
  apply NoDup_cons. split; [apply not_elem_of_nil | apply NoDup_nil_2].
Qed.

Lemma sample_scan_perm (i : nat) :
  rows (Sample.alternating_scan i) ≡ₚ rows Sample.two_records.
Proof.
  unfold Sample.alternating_scan. destruct (Nat.even i); [done | apply Permutation_swap].
Qed.

Lemma findAll_pages_cover_witness :
  (0 < default 20 (limit Sample.single_params) ∧
   NoDup (rows Sample.two_records) ∧
   Spec.no_ties (rows Sample.two_records) ∧
   ∀ i, rows (Sample.alternating_scan i) ≡ₚ rows Sample.two_records) ∧
  List.concat
    (map (λ i : nat,
            data (findAll (Spec.on_page Sample.single_params (Z.of_nat i + 1))
                    (Sample.alternating_scan i)))
         (seq 0 (Z.to_nat (Math_ceil_div
                             (Z.of_nat (length (matching Sample.single_params
                                                  Sample.two_records)))
                             (default 20 (limit Sample.single_params))))))
  = matching Sample.single_params Sample.two_records.
Proof.
  split.
  { split; [reflexivity|]. split; [apply sample_two_distinct|].
    split; [apply sample_two_no_ties | apply sample_scan_perm]. }
  pose proof (findAll_pages_cover Sample.single_params Sample.two_records
                Sample.alternating_scan eq_refl sample_two_distinct
                sample_two_no_ties sample_scan_perm) as H.
  exact (proj1 H).
Defined.

(** X2.  Every row on a page of [findAll] is a stored row that passes
    all the filters, a page holds at most [limit] rows, and the envelope
    echoes the page and limit in force (1 and 20 when omitted). *)
Theorem findAll_page_rows (p : params) (d : db) :
  Forall (λ r, In r (rows d) ∧ whereClause p r = true) (data (findAll p d)) ∧
  (length (data (findAll p d)) ≤ Z.to_nat (default 20%Z (limit p)))%nat ∧
  Pagination.page (pagination (findAll p d)) = default 1 (page p) ∧
  Pagination.limit (pagination (findAll p d)) = default 20 (limit p).
Proof.
  split; [|split; [|done]].
  - apply Forall_forall. intros r Hr. apply data_findAll_elem.
    by apply list_elem_of_In.
  - rewrite data_findAll, length_take. lia.
Qed.

(** X3.  On a page that holds at least one row, [total] is the number of
    rows that pass the filters and [totalPages] is the least number of
    pages of [limit] rows that hold them. *)
Theorem findAll_total_on_page (p : params) (d : db) :
  data (findAll p d) ≠ [] →
  Pagination.total (pagination (findAll p d)) = Z.of_nat (length (matching p d)) ∧
  Spec.is_ceil (Z.of_nat (length (matching p d))) (default 20 (limit p))
    (Pagination.totalPages (pagination (findAll p d))).
Proof.
  intros Hne.
  assert (0 < default 20 (limit p)) as HL.
  { rewrite data_findAll in Hne.
    destruct (Z.to_nat (default 20 (limit p))) eqn:E; [done | lia]. }
  pose proof (findAll_total_on_nonempty_page p d Hne) as Ht.
  split; [exact Ht|].
  rewrite <- Ht. by apply findAll_totalPages.
Qed.

Lemma findAll_total_on_page_witness :
  data (findAll Sample.pairs_params Sample.three_records) ≠ [] ∧
  Pagination.total (pagination (findAll Sample.pairs_params Sample.three_records)) = 3 ∧
  Pagination.totalPages (pagination (findAll Sample.pairs_params Sample.three_records)) = 2.
Proof.
  assert (data (findAll Sample.pairs_params Sample.three_records) ≠ []) as Hne
    by (change ([Sample.puma; Sample.huemul] ≠ []); discriminate).
  split; [exact Hne|].
  destruct (findAll_total_on_page Sample.pairs_params Sample.three_records Hne) as [Ht _].
  split; [exact Ht | reflexivity].
Defined.

(** X4.  A filter that adds no condition can be left out: [findAll]
    answers as it does for the parameters without empty strings, without
    a status outside the three literals and without a group outside
    [validGroups]. *)
Theorem findAll_effective (p : params) (d : db) :
  findAll p d = findAll (Spec.effective p) d ∧
  Spec.effective (Spec.effective p) = Spec.effective p.
Proof.
  assert (∀ o, given (given o) = given o) as Hgg.
  { intros [x|]; [simpl|done]. destruct (String.eqb x "") eqn:E; [done|].
    simpl. by rewrite E. }
  assert (∀ (l : list string) o,
            given (match given o with
                   | Some g => if includes l g then Some g else None
                   | None => None
                   end)
            = match given o with
              | Some g => if includes l g then Some g else None
              | None => None
              end) as Hgi.
  { intros l [x|]; [simpl|done]. destruct (String.eqb x "") eqn:E; [done|].
    destruct (includes l x); [simpl; by rewrite E | done]. }
  assert (conditions (Spec.effective p) = conditions p) as Hc.
  { unfold conditions, Spec.effective. cbn [status mainGroup search].
    rewrite Hgg, !Hgi. f_equal; [|f_equal].
    - destruct (given (status p)); [|done]. by destruct (includes statuses s) eqn:E; rewrite ?E.
    - destruct (given (mainGroup p)); [|done].
      by destruct (includes validGroups s) eqn:E; rewrite ?E. }
  split.
  - unfold findAll, matching, whereClause. by rewrite Hc.
  - unfold Spec.effective. cbn [page limit status mainGroup search].
    rewrite Hgg, !Hgi. f_equal.
    + destruct (given (mainGroup p)); [|done].
      by destruct (includes validGroups s) eqn:E; rewrite ?E.
    + destruct (given (status p)); [|done].
      by destruct (includes statuses s) eqn:E; rewrite ?E.
Qed.

End ListingExtras.

(** ** Searching *)

Section SearchExtras.

Import SpeciesRepository.

Lemma like_plain_cons (c d : ascii) (p s : list ascii) :
  Spec.plain_char c → like (c :: p) (d :: s) = same_letter c d && like p s.
Proof.
  intros (H1 & H2 & H3).
  destruct c as [[] [] [] [] [] [] [] []]; try reflexivity; by exfalso.
Qed.

Lemma like_plain_prefix (p p' q t : list ascii) :
  Forall Spec.plain_char p →
  Forall2 (λ c d, same_letter c d = true) p p' →
  like (p ++ q) (p' ++ t) = like q t.
Proof.
  intros Hp H. induction H as [|c d p p' Hcd H IH]; [done|].
  apply Forall_cons_1 in Hp as [Hc Hp].
  rewrite <- !app_comm_cons, like_plain_cons, Hcd by done. by apply IH.
Qed.

Lemma like_percent_step (q : list ascii) (x : ascii) (s : list ascii) :
  like ("%"%char :: q) (x :: s) = like q (x :: s) || like ("%"%char :: q) s.
Proof. reflexivity. Qed.

Lemma like_percent_skip (q pre t : list ascii) :
  like q t = true → like ("%"%char :: q) (pre ++ t) = true.
Proof.
  intros H. induction pre as [|x pre IH]; simpl app.
  - destruct t as [|y t]; [simpl; by rewrite H|].
    rewrite like_percent_step, H. done.
  - rewrite like_percent_step, IH. apply orb_true_r.
Qed.

Lemma like_percent_all (t : list ascii) : like ["%"%char] t = true.
Proof.
  induction t as [|x t IH]; [done|].
  rewrite like_percent_step, IH. apply orb_true_r.
Qed.

Lemma list_ascii_of_string_app (s t : string) :
  list_ascii_of_string (s +:+ t) = list_ascii_of_string s ++ list_ascii_of_string t.
Proof. induction s as [|c s IH]; [done|]. simpl. by rewrite IH. Qed.

Lemma ilike_contains (term pre mid post : string) :
  Spec.plain term → Spec.same_letters term mid →
  ilike (Some (JStr (pre +:+ mid +:+ post))) ("%" +:+ term +:+ "%") = true.
Proof.
  intros Hp Hs. unfold ilike.
  change ("%" +:+ term +:+ "%") with (String "%" (term +:+ "%")).
  rewrite !list_ascii_of_string_app. simpl list_ascii_of_string at 1.
  rewrite list_ascii_of_string_app.
  apply like_percent_skip. rewrite like_plain_prefix by done.
  apply like_percent_all.
Qed.

(** X5.  A search term without [%], [_] or backslash finds every record
    whose common name or scientific name contains the term, whatever the
    case of the letters; a record whose two names are [null] is found by
    no search. *)
Theorem search_finds_names (pg lim : option Z) (term pre mid post : string) (r : row) :
  term ≠ "" →
  Spec.plain term →
  Spec.same_letters term mid →
  (r !! "commonName" = Some (JStr (pre +:+ mid +:+ post)) ∨
   r !! "scientificName" = Some (JStr (pre +:+ mid +:+ post)) →
   whereClause (Params pg lim (Some term) None None) r = true) ∧
  (r !! "commonName" = Some JNull → r !! "scientificName" = Some JNull →
   whereClause (Params pg lim (Some term) None None) r = false).
Proof.
  intros Hne Hp Hs.
  assert (String.eqb term "" = false) as E by (by apply String.eqb_neq).
  unfold whereClause, conditions, given. cbn [status mainGroup search].
  rewrite E. cbn [app forallb]. split.
  - intros [H | H]; rewrite H, ilike_contains by done; [done|].
    by rewrite orb_true_r.
  - by intros -> ->.
Qed.

Lemma search_finds_names_witness :
  ("pum" ≠ "" ∧ Spec.plain "pum" ∧ Spec.same_letters "pum" "Pum") ∧
  whereClause (Sample.search_params "pum") Sample.puma = true.
Proof.
  assert (Spec.plain "pum") as Hp.
  { repeat constructor; discriminate. }
  assert (Spec.same_letters "pum" "Pum") as Hs.
  { repeat constructor. }
  split; [repeat split; [discriminate | exact Hp | exact Hs]|].
  apply (proj1 (search_finds_names None None "pum" "" "Pum" "a" Sample.puma
                  ltac:(discriminate) Hp Hs)).
  by left.
Defined.

End SearchExtras.

(** ** Reading and drafting *)

Section DraftExtras.

Import SpeciesRepository.

Lemma update_where_unknown (id : Z) (values : object) (d : db) :
  select_by_id id d = None →
  update_where (has_id id) values (rows d) = rows d ∧
  returning (has_id id) values (rows d) = [].
Proof.
  intros H.
  assert (Forall (λ r, has_id id r = false) (rows d)) as Hall.
  { apply Forall_forall. intros r Hr. apply (select_by_id_None id d r H).
    by apply list_elem_of_In. }
  unfold update_where, returning. induction Hall as [|r t Hr Ht IH]; [done|].
  destruct IH as [IH1 IH2]. simpl. rewrite Hr. by rewrite IH1, IH2.
Qed.

Lemma update_where_others (id : Z) (values : object) (t : list row) :
  Forall2 (λ r r', has_id id r = false → r' = r) t (update_where (has_id id) values t).
Proof.
  unfold update_where. apply Forall2_fmap_r, Forall_Forall2_diag, Forall_forall.
  intros r _. unfold compose. by intros ->.
Qed.

(** X6.  [findById] with [includeDraft] previews a pending draft: every
    property the draft names shows the draft's value, every other
    property the stored one, and [isDraft] is set; the read without
    [includeDraft] shows the stored record, and so does the preview of a
    record whose [hasDraft] is not set. *)
Theorem findById_preview (id : Z) (d : db) (r : row) (draft : object) :
  select_by_id id d = Some r →
  r !! "draftData" = Some (JObj draft) →
  findById id false d = Some r ∧
  (r !! "hasDraft" = Some (JBool false) → findById id true d = Some r) ∧
  (r !! "hasDraft" = Some (JBool true) →
   ∃ v, findById id true d = Some v ∧
        v !! "isDraft" = Some (JBool true) ∧
        ∀ k, k ≠ "isDraft" →
             v !! k = match draft !! k with Some x => Some x | None => r !! k end).
Proof.
  intros Hr Hd. unfold findById. rewrite Hr, Hd. simpl. split; [done|]. split.
  - by intros ->.
  - intros ->. simpl. eexists. split; [done|]. split; [by rewrite lookup_insert_eq|].
    intros k Hk. rewrite lookup_insert_ne by done.
    rewrite lookup_union. by destruct (draft !! k), (r !! k).
Qed.

Lemma findById_preview_witness :
  (select_by_id 42 (Db [Sample.puma_renamed] 43) = Some Sample.puma_renamed ∧
   Sample.puma_renamed !! "draftData"
   = Some (JObj {[ "commonName" := JStr "Puma concolor" ]})) ∧
  findById 42 false (Db [Sample.puma_renamed] 43) = Some Sample.puma_renamed.
Proof.
  split; [split; reflexivity|].
  apply (findById_preview 42 (Db [Sample.puma_renamed] 43) Sample.puma_renamed
           {[ "commonName" := JStr "Puma concolor" ]}); reflexivity.
Defined.

(** X7.  Drafting does not disturb the live record: after [createDraft]
    the record is found under the same id, every column outside
    [draftData], [hasDraft], [draftCreatedAt] and [updatedAt] holds what
    it held, every other record is as it was, and the id sequence has
    not moved. *)
Theorem createDraft_keeps_published
    (t1 t2 id : Z) (patch : object) (d : db) (current : row) :
  select_by_id id d = Some current →
  ∃ stored,
    findById id false (snd (createDraft t1 t2 id patch d)) = Some stored ∧
    fst (createDraft t1 t2 id patch d) = Ok (Some stored) ∧
    (∀ k, k ∉ "updatedAt" :: Spec.draft_columns → stored !! k = current !! k) ∧
    Forall2 (λ r r', has_id id r = false → r' = r)
      (rows d) (rows (snd (createDraft t1 t2 id patch d))) ∧
    id_seq (snd (createDraft t1 t2 id patch d)) = id_seq d.
Proof.
  intros Hc.
  destruct (createDraft_existing t1 t2 id patch d current Hc) as (Hok & Hsel & _ & Hk).
  eexists. split; [|split; [exact Hok | split; [exact Hk|]]].
  - unfold findById. by rewrite Hsel.
  - unfold createDraft. rewrite Hc. simpl. split; [apply update_where_others | done].
Qed.

Lemma createDraft_keeps_published_witness :
  select_by_id 42 (Db [Sample.puma] 43) = Some Sample.puma ∧
  ∃ stored,
    findById 42 false
      (snd (createDraft 200 201 42 {[ "commonName" := JStr "Puma concolor" ]}
              (Db [Sample.puma] 43))) = Some stored ∧
    stored !! "commonName" = Some (JStr "Puma").
Proof.
  split; [reflexivity|].
  destruct (createDraft_keeps_published 200 201 42 {[ "commonName" := JStr "Puma concolor" ]}
              (Db [Sample.puma] 43) Sample.puma eq_refl)
    as (stored & Hf & _ & Hk & _).
  exists stored. split; [exact Hf|].
  rewrite Hk; [reflexivity|].
  unfold Spec.draft_columns. intros Hin.
  repeat (apply elem_of_cons in Hin as [?|Hin]; [done|]).
  by apply elem_of_nil in Hin.
Defined.

(** X8.  For an id that no record has, [createDraft] and [publish] throw
    "Species not found", [discardDraft] and [update] return [undefined],
    [findById] returns [undefined] and [delete] does nothing; none of
    them changes the table. *)
Theorem unknown_id (t1 t2 id : Z) (patch data : object) (d : db) :
  select_by_id id d = None →
  createDraft t1 t2 id patch d = (Throw not_found, d) ∧
  publish t1 t2 id d = (Throw not_found, d) ∧
  discardDraft t1 id d = (None, d) ∧
  update t1 id data d = (None, d) ∧
  (∀ includeDraft, findById id includeDraft d = None) ∧
  delete id d = d.
Proof.
  intros H. repeat split.
  - unfold createDraft. by rewrite H.
  - by apply publish_absent.
  - unfold discardDraft.
    destruct (update_where_unknown id (discardDraft_set t1) d H) as [-> ->].
    by destruct d.
  - unfold update.
    destruct (update_where_unknown id (<["updatedAt" := JDate t1]> data) d H) as [-> ->].
    by destruct d.
  - intros b. unfold findById. by rewrite H.
  - unfold delete, delete_where. destruct d as [t s]. simpl in *. f_equal.
    apply forallb_filter_id. apply forallb_forall. intros r Hr.
    by rewrite (select_by_id_None id (Db t s) r H Hr).
Qed.

Lemma unknown_id_witness :
  select_by_id 5 (Db [Sample.puma] 43) = None ∧
  createDraft 200 201 5 {[ "commonName" := JNull ]} (Db [Sample.puma] 43)
  = (Throw not_found, Db [Sample.puma] 43).
Proof.
  split; [reflexivity|].
  apply (unknown_id 200 201 5 {[ "commonName" := JNull ]} ∅ (Db [Sample.puma] 43)).
  reflexivity.
Defined.

(** X9.  [draftCreatedAt] marks the start of a draft: the first
    [createDraft] on a record without draft stores its own time, and a
    later [createDraft] keeps that time. *)
Theorem createDraft_start_marker
    (t1 t2 t3 t4 id : Z) (patch1 patch2 : object) (d : db) (current : row) :
  select_by_id id d = Some current →
  current !! "draftCreatedAt" = Some JNull →
  let d1 := snd (createDraft t1 t2 id patch1 d) in
  let d2 := snd (createDraft t3 t4 id patch2 d1) in
  select_by_id id d1 ≫= (.!! "draftCreatedAt") = Some (JDate t1) ∧
  select_by_id id d2 ≫= (.!! "draftCreatedAt") = Some (JDate t1).
Proof.
  intros Hc Hn d1 d2.
  destruct (createDraft_existing t1 t2 id patch1 d current Hc) as (_ & Hs1 & _ & _).
  fold d1 in Hs1.
  set (c1 := set_columns (createDraft_set t1 t2 patch1 current) current) in *.
  assert (c1 !! "draftCreatedAt" = Some (JDate t1)) as H1.
  { unfold c1. rewrite lookup_set_columns, Hn, lookup_createDraft_set. simpl.
    by rewrite Hn. }
  destruct (createDraft_existing t3 t4 id patch2 d1 c1 Hs1) as (_ & Hs2 & _ & _).
  fold d2 in Hs2. rewrite Hs1, Hs2. simpl. split; [exact H1|].
  rewrite lookup_set_columns, H1, lookup_createDraft_set. simpl. by rewrite H1.
Qed.

Lemma createDraft_start_marker_witness :
  (select_by_id 42 (Db [Sample.puma] 43) = Some Sample.puma ∧
   Sample.puma !! "draftCreatedAt" = Some JNull) ∧
  select_by_id 42
    (snd (createDraft 300 301 42 {[ "scientificName" := JNull ]}
       (snd (createDraft 200 201 42 {[ "commonName" := JNull ]} (Db [Sample.puma] 43))))) ≫=
    (.!! "draftCreatedAt") = Some (JDate 200).
Proof.
  split; [split; reflexivity|].
  apply (createDraft_start_marker 200 201 300 301 42 {[ "commonName" := JNull ]}
           {[ "scientificName" := JNull ]} (Db [Sample.puma] 43) Sample.puma);
    reflexivity.
Defined.

(** X10.  Draft patches accumulate key by key: after two [createDraft]
    calls the stored draft holds, for each key, the second patch's
    value, else the first patch's, else the value of the draft that was
    pending before; and [hasDraft] is set. *)
Theorem createDraft_patches_accumulate
    (t1 t2 t3 t4 id : Z) (patch1 patch2 : object) (d : db) (current : row) :
  select_by_id id d = Some current →
  is_Some (current !! "draftData") →
  is_Some (current !! "hasDraft") →
  let d1 := snd (createDraft t1 t2 id patch1 d) in
  let d2 := snd (createDraft t3 t4 id patch2 d1) in
  ∃ stored draft,
    select_by_id id d2 = Some stored ∧
    stored !! "draftData" = Some (JObj draft) ∧
    stored !! "hasDraft" = Some (JBool true) ∧
    ∀ k, draft !! k =
         match patch2 !! k with
         | Some v => Some v
         | None => match patch1 !! k with
                   | Some v => Some v
                   | None => Spec.pending current !! k
                   end
         end.
Proof.
  intros Hc Hdd [hd Hhd] d1 d2.
  destruct (createDraft_existing t1 t2 id patch1 d current Hc) as (_ & Hs1 & Hd1 & Hk1).
  specialize (Hd1 Hdd). fold d1 in Hs1.
  set (c1 := set_columns (createDraft_set t1 t2 patch1 current) current) in *.
  destruct (createDraft_existing t3 t4 id patch2 d1 c1 Hs1) as (_ & Hs2 & Hd2 & _).
  specialize (Hd2 (ex_intro _ _ Hd1)). fold d2 in Hs2.
  rewrite (pending_object _ _ Hd1) in Hd2.
  eexists _, _. split; [exact Hs2|]. split; [exact Hd2|]. split.
  - rewrite lookup_set_columns, lookup_createDraft_set. simpl.
    unfold c1. by rewrite lookup_set_columns, Hhd.
  - intros k. rewrite !lookup_union.
    by destruct (patch2 !! k), (patch1 !! k), (Spec.pending current !! k).
Qed.

Lemma createDraft_patches_accumulate_witness :
  select_by_id 42 (Db [Sample.puma] 43) = Some Sample.puma ∧
  ∃ stored,
    select_by_id 42
      (snd (createDraft 300 301 42 {[ "commonName" := JStr "Cougar" ]}
         (snd (createDraft 200 201 42 {[ "commonName" := JStr "Lion" ]}
            (Db [Sample.puma] 43)))))
    = Some stored ∧
    stored !! "hasDraft" = Some (JBool true).
Proof.
  split; [reflexivity|].
  destruct (createDraft_patches_accumulate 200 201 300 301 42
              {[ "commonName" := JStr "Lion" ]} {[ "commonName" := JStr "Cougar" ]}
              (Db [Sample.puma] 43) Sample.puma eq_refl)
    as (stored & draft & Hs & _ & Hh & _); [by eexists | by eexists |].
  exists stored. by split.
Defined.

End DraftExtras.

(** ** Publishing, discarding, updating, deleting, creating *)

Section LifecycleExtras.

Import SpeciesRepository.

Lemma not_lifecycle_not_draft_column (k : string) :
  k ∉ Spec.lifecycle → k ∉ "updatedAt" :: Spec.draft_columns.
Proof.
  intros Hk Hin. apply Hk. unfold Spec.lifecycle, Spec.draft_columns in *.
  repeat (apply elem_of_cons in Hin as [->|Hin]; [by repeat constructor|]).
  by apply elem_of_nil in Hin.
Qed.

(** X11.  Round trip: on a record whose pending draft carries no [id],
    [createDraft(patch)] followed by [publish] returns and stores a
    record in which every content column named by the patch holds the
    patch's value, an explicit [null] included. *)
Theorem draft_publish_round_trip
    (t1 t2 tp tu id : Z) (patch : object) (d : db) (current : row) :
  select_by_id id d = Some current →
  is_Some (current !! "draftData") →
  patch !! "id" = None →
  Spec.pending current !! "id" = None →
  let d1 := snd (createDraft t1 t2 id patch d) in
  ∃ r',
    fst (publish tp tu id d1) = Ok r' ∧
    select_by_id id (snd (publish tp tu id d1)) = Some r' ∧
    ∀ k v, patch !! k = Some v → k ∉ Spec.lifecycle → is_Some (current !! k) →
           r' !! k = Some v.
Proof.
  intros Hc Hdd Hpid Hid d1.
  destruct (createDraft_existing t1 t2 id patch d current Hc) as (_ & Hs1 & Hd1 & Hk1).
  specialize (Hd1 Hdd). fold d1 in Hs1.
  set (c1 := set_columns (createDraft_set t1 t2 patch current) current) in *.
  assert (truthy (c1 !! "draftData") = true) as Ht by (by rewrite Hd1).
  rewrite (publish_with_draft _ _ _ _ _ Hs1 Ht). simpl.
  rewrite select_after_update, Hs1; cycle 1.
  { left. rewrite lookup_updateData. simpl. rewrite Hd1. simpl.
    by rewrite lookup_union, Hpid, Hid. }
  simpl. eexists. split; [reflexivity|]. split; [reflexivity|].
  intros k v Hv Hlife [old Hold].
  rewrite published_row_lookup, Hd1. simpl.
  rewrite (Hk1 k) by (by apply not_lifecycle_not_draft_column).
  rewrite Hold. simpl. f_equal.
  rewrite published_value_content by done.
  by rewrite (lookup_union_Some_l _ _ _ _ Hv).
Qed.

Lemma draft_publish_round_trip_witness :
  (select_by_id 42 (Db [Sample.puma] 43) = Some Sample.puma ∧
   ({[ "scientificName" := JNull ]} : object) !! "id" = None ∧
   Spec.pending Sample.puma !! "id" = None) ∧
  ∃ r',
    fst (publish 300 301 42
           (snd (createDraft 200 201 42 {[ "scientificName" := JNull ]}
                   (Db [Sample.puma] 43)))) = Ok r' ∧
    r' !! "scientificName" = Some JNull.
Proof.
  split; [repeat split; reflexivity|].
  destruct (draft_publish_round_trip 200 201 300 301 42 {[ "scientificName" := JNull ]}
              (Db [Sample.puma] 43) Sample.puma eq_refl)
    as (r' & Hok & _ & Hk); [by eexists | reflexivity | reflexivity |].
  exists r'. split; [exact Hok|].
  apply Hk; [reflexivity | | by eexists].
  unfold Spec.lifecycle. intros Hin.
  repeat (apply elem_of_cons in Hin as [?|Hin]; [done|]).
  by apply elem_of_nil in Hin.
Defined.

(** X12.  Discarding undoes drafting: on a record without draft,
    [createDraft] followed by [discardDraft] leaves the record as it was
    in every column but [updatedAt]. *)
Theorem createDraft_then_discardDraft
    (t1 t2 t3 id : Z) (patch : object) (d : db) (current : row) :
  select_by_id id d = Some current →
  Spec.no_draft current →
  ∃ stored,
    fst (discardDraft t3 id (snd (createDraft t1 t2 id patch d))) = Some stored ∧
    select_by_id id (snd (discardDraft t3 id (snd (createDraft t1 t2 id patch d))))
    = Some stored ∧
    Spec.same_except "updatedAt" stored current.
Proof.
  intros Hc (H1 & H2 & H3).
  destruct (createDraft_existing t1 t2 id patch d current Hc) as (_ & Hs1 & _ & Hk1).
  set (d1 := snd (createDraft t1 t2 id patch d)) in *.
  set (c1 := set_columns (createDraft_set t1 t2 patch current) current) in *.
  unfold discardDraft. simpl.
  rewrite returning_after_select, select_after_update, Hs1
    by (left; by rewrite lookup_discardDraft_set).
  simpl. eexists. split; [reflexivity|]. split; [reflexivity|].
  intros k Hk. rewrite lookup_set_columns, lookup_discardDraft_set.
  rewrite (decide_False (P := k = "updatedAt")) by done.
  unfold c1.
  destruct (decide (k = "draftCreatedAt")) as [->|N1].
  { by rewrite lookup_set_columns, H3. }
  destruct (decide (k = "hasDraft")) as [->|N2].
  { by rewrite lookup_set_columns, H2. }
  destruct (decide (k = "draftData")) as [->|N3].
  { by rewrite lookup_set_columns, H1. }
  rewrite lookup_set_columns, lookup_createDraft_set.
  rewrite !decide_False by done.
  by destruct (current !! k).
Qed.

Lemma createDraft_then_discardDraft_witness :
  (select_by_id 42 (Db [Sample.puma] 43) = Some Sample.puma ∧ Spec.no_draft Sample.puma) ∧
  ∃ stored,
    fst (discardDraft 300 42
           (snd (createDraft 200 201 42 {[ "commonName" := JStr "Cougar" ]}
                   (Db [Sample.puma] 43)))) = Some stored ∧
    Spec.same_except "updatedAt" stored Sample.puma.
Proof.
  assert (Spec.no_draft Sample.puma) as Hn by (repeat split).
  split; [split; [reflexivity | exact Hn]|].
  destruct (createDraft_then_discardDraft 200 201 300 42 {[ "commonName" := JStr "Cougar" ]}
              (Db [Sample.puma] 43) Sample.puma eq_refl Hn)
    as (stored & H1 & _ & H2).
  exists stored. by split.
Defined.

(** X13.  Publishing a record that was never published and has no draft
    sets [status], [publishedAt] and [updatedAt] and nothing else; the
    record is returned and stays under its id. *)
Theorem publish_first_time (tp tu id : Z) (d : db) (current : row) :
  select_by_id id d = Some current →
  current !! "draftData" = Some JNull →
  current !! "status" = Some (JStr "draft") →
  ∃ stored,
    fst (publish tp tu id d) = Ok stored ∧
    select_by_id id (snd (publish tp tu id d)) = Some stored ∧
    stored !! "status" = Some (JStr "published") ∧
    stored !! "publishedAt" = (λ _, JDate tp) <$> current !! "publishedAt" ∧
    stored !! "updatedAt" = (λ _, JDate tu) <$> current !! "updatedAt" ∧
    ∀ k, k ∉ ["status"; "publishedAt"; "updatedAt"] → stored !! k = current !! k.
Proof.
  intros Hc Hd Hs.
  assert (truthy (current !! "draftData") = false) as Ht by (by rewrite Hd).
  assert (is_string (current !! "status") "draft" = true) as Hst by (by rewrite Hs).
  rewrite (publish_never_published _ _ _ _ _ Hc Ht Hst). simpl.
  rewrite select_after_update, Hc by (left; by rewrite lookup_publish_set).
  simpl. eexists. split; [reflexivity|]. split; [reflexivity|].
  split; [|split; [|split]].
  - by rewrite lookup_set_columns, Hs, lookup_publish_set.
  - rewrite lookup_set_columns, lookup_publish_set. by destruct (current !! "publishedAt").
  - rewrite lookup_set_columns, lookup_publish_set. by destruct (current !! "updatedAt").
  - intros k Hk. rewrite lookup_set_columns, lookup_publish_set.
    assert (∀ x, x ∈ ["status"; "publishedAt"; "updatedAt"] → k ≠ x) as Hne
      by (intros x Hx ->; done).
    rewrite !decide_False by (apply Hne; set_solver).
    by destruct (current !! k).
Qed.

Lemma publish_first_time_witness :
  (select_by_id 7 (Db [Sample.huemul] 43) = Some Sample.huemul ∧
   Sample.huemul !! "draftData" = Some JNull ∧
   Sample.huemul !! "status" = Some (JStr "draft")) ∧
  ∃ stored,
    fst (publish 300 301 7 (Db [Sample.huemul] 43)) = Ok stored ∧
    stored !! "status" = Some (JStr "published").
Proof.
  split; [repeat split; reflexivity|].
  destruct (publish_first_time 300 301 7 (Db [Sample.huemul] 43) Sample.huemul
              eq_refl eq_refl eq_refl)
    as (stored & H1 & _ & H2 & _).
  exists stored. by split.
Defined.

(** X14.  The two failures of [publish]: it throws "Species not found"
    exactly when no record has the id, and "Nothing to publish" exactly
    when the record has no draft and its status is not [draft]; either
    way the table is left as it was. *)
Theorem publish_failures (tp tu id : Z) (d : db) :
  (fst (publish tp tu id d) = Throw not_found ↔ select_by_id id d = None) ∧
  (fst (publish tp tu id d) = Throw nothing_to_publish ↔
   ∃ current, select_by_id id d = Some current ∧
              truthy (current !! "draftData") = false ∧
              is_string (current !! "status") "draft" = false) ∧
  (fst (publish tp tu id d) = Throw not_found ∨
   fst (publish tp tu id d) = Throw nothing_to_publish →
   snd (publish tp tu id d) = d).
Proof.
  split; [apply publish_not_found_iff|]. split; [apply publish_nothing_iff|].
  intros [H | H].
  - apply publish_not_found_iff in H. by rewrite publish_absent.
  - apply publish_nothing_iff in H as (current & Hc & Ht & Hs).
    by rewrite (publish_nothing _ _ _ _ _ Hc Ht Hs).
Qed.

(** X16.  [delete] removes the record with the id and no other: the id
    is no longer found, so a later [publish] throws "Species not found",
    and a record under another id is found as before. *)
Theorem delete_removes (tp tu id : Z) (d : db) :
  select_by_id id (delete id d) = None ∧
  fst (publish tp tu id (delete id d)) = Throw not_found ∧
  (∀ r, In r (rows (delete id d)) ↔ In r (rows d) ∧ has_id id r = false) ∧
  (∀ id', id' ≠ id → select_by_id id' (delete id d) = select_by_id id' d).
Proof.
  assert (select_by_id id (delete id d) = None) as Hnone.
  { unfold select_by_id, select_where, delete, delete_where. simpl.
    induction (rows d) as [|r t IH]; [done|]. simpl.
    destruct (has_id id r) eqn:E; simpl; [exact IH|]. by rewrite E. }
  split; [exact Hnone|]. split; [by rewrite publish_absent|]. split.
  - intros r. unfold delete, delete_where. simpl. rewrite filter_In.
    by rewrite negb_true_iff.
  - intros id' Hne. unfold select_by_id, select_where, delete, delete_where. simpl.
    f_equal. induction (rows d) as [|r t IH]; [done|]. simpl.
    destruct (has_id id r) eqn:E; simpl.
    + destruct (has_id id' r) eqn:E'; [|exact IH].
      apply has_id_true in E, E'. rewrite E in E'. congruence.
    + destruct (has_id id' r); by rewrite IH.
Qed.

(** X17.  [update] on an existing record, with data that carries no
    [id]: the record is returned and stays under its id; [updatedAt]
    holds the time of the call, whatever the data says; every other
    column holds the data's value if the data names it and its old value
    otherwise; a key of the data that is not a column is dropped. *)
Theorem update_writes_columns (now id : Z) (data : object) (d : db) (current : row) :
  select_by_id id d = Some current →
  data !! "id" = None →
  ∃ stored,
    fst (update now id data d) = Some stored ∧
    select_by_id id (snd (update now id data d)) = Some stored ∧
    stored !! "updatedAt" = (λ _, JDate now) <$> current !! "updatedAt" ∧
    (∀ k, k ≠ "updatedAt" →
          stored !! k = (λ old, default old (data !! k)) <$> current !! k) ∧
    dom stored = dom current.
Proof.
  intros Hc Hid. unfold update. simpl.
  rewrite returning_after_select, select_after_update, Hc
    by (left; by rewrite lookup_insert_ne).
  simpl. eexists. split; [reflexivity|]. split; [reflexivity|]. split; [|split].
  - rewrite lookup_set_columns, lookup_insert_eq. by destruct (current !! "updatedAt").
  - intros k Hk. by rewrite lookup_set_columns, lookup_insert_ne.
  - apply set_eq. intros k. rewrite !elem_of_dom, lookup_set_columns.
    by rewrite fmap_is_Some.
Qed.

Lemma update_writes_columns_witness :
  (select_by_id 42 (Db [Sample.puma] 43) = Some Sample.puma ∧
   ({[ "commonName" := JStr "Cougar" ]} : object) !! "id" = None) ∧
  ∃ stored,
    fst (update 300 42 {[ "commonName" := JStr "Cougar" ]} (Db [Sample.puma] 43))
    = Some stored ∧
    stored !! "updatedAt" = Some (JDate 300).
Proof.
  split; [split; reflexivity|].
  destruct (update_writes_columns 300 42 {[ "commonName" := JStr "Cougar" ]}
              (Db [Sample.puma] 43) Sample.puma)
    as (stored & H1 & _ & H2 & _); [reflexivity | reflexivity |].
  exists stored. by split.
Defined.

End LifecycleExtras.

Section LifecycleWitnesses.

Import SpeciesRepository.

Lemma publish_twice_witness :
  (select_by_id 42 (Db [Sample.puma_renamed] 43) = Some Sample.puma_renamed ∧
   Sample.puma_renamed !! "draftData"
   = Some (JObj {[ "commonName" := JStr "Puma concolor" ]})) ∧
  fst (publish 300 301 42 (snd (publish 200 201 42 (Db [Sample.puma_renamed] 43))))
  = Throw nothing_to_publish.
Proof.
  split; [split; reflexivity|].
  apply (publish_twice 200 201 300 301 42 (Db [Sample.puma_renamed] 43) Sample.puma_renamed
           {[ "commonName" := JStr "Puma concolor" ]});
    [reflexivity | reflexivity | by eexists | by left].
Defined.

Lemma publish_succeeds_witness :
  (select_by_id 7 (Db [Sample.huemul] 43) = Some Sample.huemul ∧
   is_string (Sample.huemul !! "status") "draft" = true) ∧
  ∃ r', fst (publish 200 201 7 (Db [Sample.huemul] 43)) = Ok r' ∧
        In r' (rows (snd (publish 200 201 7 (Db [Sample.huemul] 43)))).
Proof.
  split; [split; reflexivity|].
  apply (publish_succeeds 200 201 7 (Db [Sample.huemul] 43) Sample.huemul);
    [reflexivity | by right | by left].
Defined.

(** X18.  [create] with data that carries no [id], on a table where the
    next sequence value is free: the new record gets that value as its
    id, holds the data's value in every column the data names, is found
    by [findById], and the sequence moves on by one; the records that
    were there are found as before. *)
Theorem create_then_find (defaults : row) (now : Z) (data : object) (d : db) :
  data !! "id" = None →
  select_by_id (id_seq d) d = None →
  ∃ r,
    fst (create defaults now data d) = Some r ∧
    findById (id_seq d) false (snd (create defaults now data d)) = Some r ∧
    r !! "id" = Some (JNum (id_seq d)) ∧
    id_seq (snd (create defaults now data d)) = id_seq d + 1 ∧
    (∀ k v, data !! k = Some v → is_Some (defaults !! k) → r !! k = Some v) ∧
    (∀ id', id' ≠ id_seq d →
            select_by_id id' (snd (create defaults now data d)) = select_by_id id' d).
Proof.
  intros Hid Hfree. unfold create. simpl.
  set (r := set_columns data (fresh_row defaults now d)).
  assert (r !! "id" = Some (JNum (id_seq d))) as Hrid.
  { unfold r, fresh_row. by rewrite lookup_set_columns, lookup_insert_eq, Hid. }
  assert (List.filter (has_id (id_seq d)) (rows d) = []) as Hnil.
  { unfold select_by_id, select_where in Hfree.
    by destruct (List.filter (has_id (id_seq d)) (rows d)). }
  exists r. split; [done|]. split; [|split; [done|split; [|split]]].
  - unfold findById, select_by_id, select_where. simpl.
    rewrite List.filter_app, Hnil. simpl.
    by rewrite (proj2 (has_id_true (id_seq d) r) Hrid).
  - destruct (decide (is_Some (data !! "id"))) as [[x Hx]|]; [congruence | done].
  - intros k v Hv [x Hx]. unfold r, fresh_row. rewrite lookup_set_columns, Hv.
    destruct (decide (k = "id")) as [->|]; [by rewrite lookup_insert_eq|].
    rewrite lookup_insert_ne by done.
    destruct (decide (k = "createdAt")) as [->|]; [by rewrite lookup_insert_eq|].
    rewrite lookup_insert_ne by done.
    destruct (decide (k = "updatedAt")) as [->|]; [by rewrite lookup_insert_eq|].
    by rewrite lookup_insert_ne, Hx.
  - intros id' Hne. unfold select_by_id, select_where. simpl.
    rewrite List.filter_app. simpl.
    assert (has_id id' r = false) as ->.
    { destruct (has_id id' r) eqn:E; [|done].
      apply has_id_true in E. rewrite Hrid in E. congruence. }
    by rewrite app_nil_r.
Qed.

Lemma create_then_find_witness :
  (({[ "commonName" := JStr "Pudu" ]} : object) !! "id" = None ∧
   select_by_id (id_seq (Db [Sample.puma] 43)) (Db [Sample.puma] 43) = None) ∧
  ∃ r,
    fst (create Sample.defaults 300 {[ "commonName" := JStr "Pudu" ]} (Db [Sample.puma] 43))
    = Some r ∧
    r !! "id" = Some (JNum 43).
Proof.
  split; [split; reflexivity|].
  destruct (create_then_find Sample.defaults 300 {[ "commonName" := JStr "Pudu" ]}
              (Db [Sample.puma] 43))
    as (r & H1 & _ & H2 & _); [reflexivity | reflexivity |].
  exists r. by split.
Defined.

End LifecycleWitnesses.

(** ** [UsersService] *)

Section UsersExtras.

Context {LocalStore Clerk : Type}.
Context (findById : LocalStore → Z → option UsersService.user).
Context (findByClerkId : LocalStore → string → option UsersService.user).
Context (repository_update :
           LocalStore → Z → object → LocalStore * option UsersService.user).
Context (createFromClerk :
           LocalStore → UsersService.clerk_user → LocalStore * option UsersService.user).
Context (getUser : Clerk → string → outcome jsval).
Context (updateUser : Clerk → string → object → outcome Clerk).

Abbreviation users_update :=
  (UsersService.update LocalStore findById findByClerkId repository_update
     Clerk getUser updateUser).
Abbreviation users_sync :=
  (UsersService.syncRoleToClerk LocalStore findByClerkId Clerk getUser updateUser).
Abbreviation users_create :=
  (UsersService.createUserFromClerk LocalStore Clerk getUser updateUser createFromClerk).

(** X20.  An update that carries no role is open to every caller and
    never reaches the identity provider: for an existing user it returns
    the repository's result and leaves the store the repository left;
    for an unknown user it fails with [NotFoundException] and changes
    nothing. *)
Theorem update_without_role
    (target : Z) (dto : object) (currentUserId currentUserRole : string)
    (st : LocalStore) (ck : Clerk) :
  truthy (dto !! "role") = false →
  (∀ u, findById st target = Some u →
        users_update target dto currentUserId currentUserRole st ck
        = (Ok (snd (repository_update st target dto)),
           (fst (repository_update st target dto), ck))) ∧
  (findById st target = None →
   ∃ message,
     users_update target dto currentUserId currentUserRole st ck
     = (Throw (NotFoundException message), (st, ck))).
Proof.
  intros Hrole. unfold UsersService.update. split.
  - intros u ->. rewrite Hrole, andb_false_r. cbn -[truthy].
    destruct (repository_update st target dto) as [st' updated]. cbn -[truthy].
    destruct (dto !! "role") as [role|]; [|done].
    destruct updated; [|done]. by rewrite Hrole.
  - intros ->. eauto.
Qed.

(** X21.  A permitted role change pushes the role to the provider once,
    after the local update: the provider ends in the state
    [syncRoleToClerk] leaves, called with the target's external id, the
    new role and the updated store; when the repository updated no row
    the provider is not called. *)
Theorem update_role_change_sync
    (target : Z) (dto : object) (role : json) (currentUserId : string)
    (st : LocalStore) (ck : Clerk) (u : UsersService.user) :
  findById st target = Some u →
  dto !! "role" = Some role →
  truthy (Some role) = true →
  UsersService.clerkId u ≠ currentUserId →
  snd (snd (users_update target dto currentUserId "admin" st ck))
  = match snd (repository_update st target dto) with
    | Some _ =>
        users_sync (UsersService.clerkId u) role (fst (repository_update st target dto)) ck
    | None => ck
    end.
Proof.
  intros Hu Hrole Ht Hother. unfold UsersService.update.
  rewrite Hu, Hrole, Ht. apply String.eqb_neq in Hother. rewrite Hother. cbn -[truthy].
  by destruct (repository_update st target dto) as [st' [updated|]].
Qed.

(** X22.  [syncRoleToClerk] is best effort and keeps what the provider
    holds: when a step fails the provider is left as it was; otherwise
    the one write it makes carries the new role, the local id of the
    user, and every other entry of the metadata the provider had. *)
Theorem syncRoleToClerk_metadata
    (clerkId : string) (role : json) (st : LocalStore) (ck : Clerk) :
  ((∃ e, getUser ck clerkId = Throw e) ∨ findByClerkId st clerkId = None →
   users_sync clerkId role st ck = ck) ∧
  (∀ current u, getUser ck clerkId = Ok (Some (JObj current)) →
     findByClerkId st clerkId = Some u →
     ∃ metadata : object,
       users_sync clerkId role st ck
       = match updateUser ck clerkId metadata with Ok ck' => ck' | Throw _ => ck end ∧
       metadata !! "role" = Some role ∧
       metadata !! "userId" = Some (JNum (UsersService.id u)) ∧
       ∀ k, k ≠ "role" → k ≠ "userId" → metadata !! k = current !! k).
Proof.
  unfold UsersService.syncRoleToClerk. split.
  - intros [[e ->] | H]; [done|].
    destruct (getUser ck clerkId); [|done]. by rewrite H.
  - intros current u -> ->. simpl. eexists. split; [reflexivity|].
    split; [by rewrite lookup_insert_ne, lookup_insert_eq|].
    split; [by rewrite lookup_insert_eq|].
    intros k H1 H2. by rewrite !lookup_insert_ne.
Qed.

(** X26.  [createUserFromClerk] returns what the local insert returned
    and leaves the store the insert left, whatever the provider answers;
    when nothing was inserted, or the provider's read fails, the
    provider is left as it was. *)
Theorem createUserFromClerk_best_effort
    (userData : UsersService.clerk_user) (st : LocalStore) (ck : Clerk) :
  fst (users_create userData st ck) = snd (createFromClerk st userData) ∧
  fst (snd (users_create userData st ck)) = fst (createFromClerk st userData) ∧
  (snd (createFromClerk st userData) = None ∨
   (∃ e, getUser ck (UsersService.cu_clerkId userData) = Throw e) →
   snd (snd (users_create userData st ck)) = ck).
Proof.
  unfold UsersService.createUserFromClerk.
  destruct (createFromClerk st userData) as [st' [u|]]; simpl; [|by auto].
  repeat split. intros [H | [e ->]]; done.
Qed.

End UsersExtras.

Section UsersWitnesses.

Lemma update_without_role_witness :
  truthy (({[ "bio" := JStr "Ranger" ]} : object) !! "role") = false ∧
  fst (Sample.service_update 2 {[ "bio" := JStr "Ranger" ]} "user_editor" "species_editor"
         [Sample.editor; Sample.admin] ∅)
  = Ok (snd (Sample.users_update [Sample.editor; Sample.admin] 2 {[ "bio" := JStr "Ranger" ]})).
Proof.
  split; [reflexivity|].
  pose proof (proj1 (update_without_role Sample.users_findById Sample.users_findByClerkId
                       Sample.users_update Sample.clerk_getUser Sample.clerk_updateUser
                       2 {[ "bio" := JStr "Ranger" ]} "user_editor" "species_editor"
                       [Sample.editor; Sample.admin] ∅ eq_refl) Sample.admin eq_refl) as H.
  unfold Sample.service_update. by rewrite H.
Defined.

Lemma update_role_change_sync_witness :
  (Sample.users_findById [Sample.editor; Sample.admin] 1 = Some Sample.editor ∧
   ({[ "role" := JStr "content_editor" ]} : object) !! "role" = Some (JStr "content_editor") ∧
   truthy (Some (JStr "content_editor")) = true ∧
   UsersService.clerkId Sample.editor ≠ "user_admin") ∧
  snd (snd (Sample.service_update 1 {[ "role" := JStr "content_editor" ]} "user_admin" "admin"
              [Sample.editor; Sample.admin] {[ "user_editor" := JObj ∅ ]})) !! "user_editor"
  = Some (JObj (<["userId" := JNum 1]> {[ "role" := JStr "content_editor" ]})).
Proof.
  split; [repeat split; done|].
  unfold Sample.service_update.
  rewrite (update_role_change_sync Sample.users_findById Sample.users_findByClerkId
             Sample.users_update Sample.clerk_getUser Sample.clerk_updateUser
             1 {[ "role" := JStr "content_editor" ]} (JStr "content_editor") "user_admin"
             [Sample.editor; Sample.admin] {[ "user_editor" := JObj ∅ ]} Sample.editor)
    by done.
  reflexivity.
Defined.

End UsersWitnesses.

(** ** [getUserStats] *)

Section StatsExtras.

Import UsersService.

Variable inherited : string → option string.

Lemma count_if_cons (test : user → bool) (u : user) (items : list user) :
  Spec.count_if test (u :: items)
  = (if test u then 1 else 0) + Spec.count_if test items.
Proof. unfold Spec.count_if. simpl. destruct (test u); simpl; lia. Qed.

Lemma count_if_mono (p q : user → bool) (items : list user) :
  (∀ u, p u = true → q u = true) → Spec.count_if p items ≤ Spec.count_if q items.
Proof.
  intros H. induction items as [|u items IH]; [done|].
  rewrite !count_if_cons. specialize (H u).
  destruct (p u) eqn:Ep, (q u) eqn:Eq; try lia.
Qed.

Lemma count_if_bounds (p : user → bool) (items : list user) :
  0 ≤ Spec.count_if p items ≤ Z.of_nat (length items).
Proof.
  induction items as [|u items IH]; [done|].
  rewrite count_if_cons. simpl length. destruct (p u); lia.
Qed.

Lemma lookup_assign (role r : string) (v : tally) (o : gmap string tally) :
  assign role v o !! r
  = if decide (role = r ∧ role ≠ "__proto__") then Some v else o !! r.
Proof.
  unfold assign. destruct (String.eqb_spec role "__proto__") as [->|Hne].
  - by rewrite decide_False by (by intros [_ ?]).
  - destruct (decide (role = r)) as [->|Hr].
    + by rewrite lookup_insert_eq, decide_True.
    + by rewrite lookup_insert_ne, decide_False by (by intros [? _] || done).
Qed.

Lemma append_not_empty (t : string) : t +:+ "1" ≠ "".
Proof. by destruct t. Qed.

(** The activity counters and [total] after the loop. *)
Lemma fold_count_user (lastMonth lastWeek today : Z) (items : list user) (s0 : stats) :
  let s := fold_left (count_user inherited lastMonth lastWeek today) items s0 in
  total s = total s0 ∧
  activeLastMonth s
  = activeLastMonth s0 + Spec.count_if (λ u, lastMonth <=? createdAt u) items ∧
  activeLastWeek s
  = activeLastWeek s0 + Spec.count_if (λ u, lastWeek <=? createdAt u) items ∧
  activeToday s = activeToday s0 + Spec.count_if (λ u, today <=? createdAt u) items.
Proof.
  revert s0. induction items as [|u items IH]; intros s0.
  - unfold Spec.count_if. simpl. lia.
  - simpl. destruct (IH (count_user inherited lastMonth lastWeek today s0 u))
      as (H1 & H2 & H3 & H4).
    rewrite !count_if_cons. simpl in *.
    split; [exact H1|].
    split; [rewrite H2; destruct (lastMonth <=? createdAt u); lia|].
    split; [rewrite H3; destruct (lastWeek <=? createdAt u); lia|].
    rewrite H4; destruct (today <=? createdAt u); lia.
Qed.

(** The entry of a role that the prototype does not know: a count. *)
Lemma fold_byRole_counted (lm lw td : Z) (r : string) (items : list user) (s0 : stats) :
  inherited r = None →
  r ≠ "__proto__" →
  (byRole s0 !! r = None ∨ ∃ n, byRole s0 !! r = Some (Counted n)) →
  byRole (fold_left (count_user inherited lm lw td) items s0) !! r
  = Spec.tallied (byRole s0 !! r) (Spec.count_if (λ u, String.eqb (role u) r) items).
Proof.
  intros Hinh Hr. revert s0. induction items as [|u items IH]; intros s0 H0.
  - unfold Spec.count_if. simpl.
    destruct H0 as [-> | (n & ->)]; simpl; [done|]. do 2 f_equal. lia.
  - simpl fold_left. rewrite IH, count_if_cons; simpl; rewrite lookup_assign.
    + destruct (String.eqb_spec (role u) r) as [E|Hne].
      * rewrite decide_True by (by subst r). subst r. rewrite Hinh.
        pose proof (count_if_bounds (λ u0, String.eqb (role u0) (role u)) items) as Hb.
        destruct H0 as [-> | (n & ->)]; simpl.
        -- destruct (Z.eqb_spec (1 + Spec.count_if (λ u0, String.eqb (role u0) (role u))
                                       items) 0) as [|_]; [lia|].
           reflexivity.
        -- do 2 f_equal. lia.
      * rewrite decide_False by (by intros [? _]). by rewrite Z.add_0_l.
    + destruct (decide (role u = r ∧ role u ≠ "__proto__")) as [[E _]|_]; [|exact H0].
      right. subst r. rewrite Hinh.
      destruct H0 as [-> | (n & ->)]; simpl; eauto.
Qed.

(** The entry of a role that is the name of an inherited member: once
    touched, a text. *)
Lemma fold_byRole_text (lm lw td : Z) (r : string) (items : list user) (s0 : stats) :
  is_Some (inherited r) →
  r ≠ "__proto__" →
  (byRole s0 !! r = None ∨ ∃ t, byRole s0 !! r = Some (Text t) ∧ t ≠ "") →
  0 < Spec.count_if (λ u, String.eqb (role u) r) items ∨ is_Some (byRole s0 !! r) →
  ∃ t, byRole (fold_left (count_user inherited lm lw td) items s0) !! r = Some (Text t) ∧
       t ≠ "".
Proof.
  intros [p Hinh] Hr. revert s0. induction items as [|u items IH]; intros s0 H0 Hpos.
  - unfold Spec.count_if in Hpos. simpl in *.
    destruct Hpos as [? | [x Hx]]; [lia|].
    destruct H0 as [H0 | H0]; [congruence | exact H0].
  - simpl fold_left. apply IH; simpl; rewrite lookup_assign.
    + destruct (decide (role u = r ∧ role u ≠ "__proto__")) as [[E _]|_]; [|exact H0].
      right. subst r. rewrite Hinh.
      destruct H0 as [-> | (t & -> & Ht)]; simpl.
      * eexists. split; [reflexivity | apply append_not_empty].
      * apply String.eqb_neq in Ht. rewrite Ht.
        eexists. split; [reflexivity | apply append_not_empty].
    + rewrite count_if_cons in Hpos.
      destruct (String.eqb_spec (role u) r) as [E|Hne].
      * right. rewrite decide_True by (by subst r). by eexists.
      * rewrite decide_False by (by intros [? _]).
        destruct Hpos as [Hpos | Hs]; [left; lia | by right].
Qed.

Lemma fold_byRole_proto (lm lw td : Z) (items : list user) (s0 : stats) :
  byRole (fold_left (count_user inherited lm lw td) items s0) !! "__proto__"
  = byRole s0 !! "__proto__".
Proof.
  revert s0. induction items as [|u items IH]; intros s0; [done|].
  simpl fold_left. rewrite IH. simpl. rewrite lookup_assign.
  by rewrite decide_False by (by intros [-> ?]).
Qed.

(** X23.  [getUserStats] counts the users it was handed.  For a role
    whose name is not that of a member every plain object inherits,
    [byRole] holds the number of users with that role, and no entry when
    there is none; for a role named like such a member ([constructor],
    [toString], ...) the entry is a text, not a count; no entry is ever
    written under [__proto__].  The three activity counters count the
    users created since 30 days, since 7 days and since [today], so the
    weekly counter is at most the monthly one, which is at most the
    number of users, and today's is at most the weekly one whenever
    [today] is no more than 7 days back; [total] is the repository's
    [totalItems], whatever the number of users handed over. *)
Theorem getUserStats_counts (items : list user) (totalItems now today : Z) :
  let s := getUserStats inherited items totalItems now today in
  total s = totalItems ∧
  (∀ r, inherited r = None → r ≠ "__proto__" →
        byRole s !! r
        = if Spec.count_if (λ u, String.eqb (role u) r) items =? 0 then None
          else Some (Counted (Spec.count_if (λ u, String.eqb (role u) r) items))) ∧
  (∀ r, is_Some (inherited r) → r ≠ "__proto__" →
        0 < Spec.count_if (λ u, String.eqb (role u) r) items →
        ∃ t, byRole s !! r = Some (Text t)) ∧
  byRole s !! "__proto__" = None ∧
  activeLastMonth s
  = Spec.count_if (λ u, now - 30 * 24 * 60 * 60 * 1000 <=? createdAt u) items ∧
  activeLastWeek s
  = Spec.count_if (λ u, now - 7 * 24 * 60 * 60 * 1000 <=? createdAt u) items ∧
  activeToday s = Spec.count_if (λ u, today <=? createdAt u) items ∧
  activeLastWeek s ≤ activeLastMonth s ≤ Z.of_nat (length items) ∧
  (now - 7 * 24 * 60 * 60 * 1000 ≤ today → activeToday s ≤ activeLastWeek s).
Proof.
  intros s. unfold s, getUserStats.
  destruct (fold_count_user (now - 30 * 24 * 60 * 60 * 1000) (now - 7 * 24 * 60 * 60 * 1000)
              today items (Stats totalItems ∅ 0 0 0))
    as (H1 & H2 & H3 & H4).
  simpl in *. rewrite H2, H3, H4.
  split; [exact H1|]. split.
  { intros r Hinh Hr. rewrite fold_byRole_counted by (done || by left). done. }
  split.
  { intros r Hinh Hr Hpos.
    destruct (fold_byRole_text (now - 30 * 24 * 60 * 60 * 1000)
                (now - 7 * 24 * 60 * 60 * 1000) today r items
                (Stats totalItems ∅ 0 0 0) Hinh Hr) as (t & Ht & _);
      [by left | by left | by exists t]. }
  split; [by rewrite fold_byRole_proto|].
  split; [lia|]. split; [lia|]. split; [lia|]. split; [split|].
  - rewrite !Z.add_0_l. apply count_if_mono. intros u. rewrite !Z.leb_le. lia.
  - rewrite Z.add_0_l. apply count_if_bounds.
  - intros Ht. rewrite !Z.add_0_l. apply count_if_mono. intros u. rewrite !Z.leb_le. lia.
Qed.

End StatsExtras.

Section StatsExamples.

(** An editor, an admin and a user whose role is [constructor]: the two
    ordinary roles are counted, the third entry is a text. *)
Lemma getUserStats_sample :
  UsersService.byRole
    (UsersService.getUserStats Sample.engine_inherited
       [Sample.editor; Sample.admin; Sample.odd_user] 3 1000 1000)
  = {[ "species_editor" := UsersService.Counted 1;
       "admin" := UsersService.Counted 1;
       "constructor" := UsersService.Text "function Object() { [native code] }1" ]}.
Proof. reflexivity. Qed.

End StatsExamples.

(** ** The public site's repositories *)

Section PublicExtras.




(** X25.  The species [getTotalPublished] reads [total] at the top of
    the response: on an answer in the listing envelope, where the total
    sits under [pagination], it returns [0] whatever that total is,
    while the news [getTotalPublished] returns the total. *)
Theorem getTotalPublished_envelope (r pg : object) (n : Z) :
  r !! "total" = None →
  r !! "pagination" = Some (JObj pg) →
  pg !! "total" = Some (JNum n) →
  PublicSpecies.getTotalPublished (Ok (Some (JObj r))) = JNum 0 ∧
  PublicNews.getTotalPublished (Ok (Some (JObj r))) = JNum n.
Proof.
  intros H1 H2 H3. unfold PublicSpecies.getTotalPublished, PublicNews.getTotalPublished.
  simpl. rewrite H1, H2. simpl. rewrite H3. split; [done|].
  unfold or_else. simpl. destruct (Z.eqb_spec n 0) as [->|]; done.
Qed.

Lemma getTotalPublished_envelope_witness :
  (({[ "pagination" := JObj {[ "total" := JNum 12 ]} ]} : object) !! "total" = None ∧
   ({[ "pagination" := JObj {[ "total" := JNum 12 ]} ]} : object) !! "pagination"
   = Some (JObj {[ "total" := JNum 12 ]}) ∧
   ({[ "total" := JNum 12 ]} : object) !! "total" = Some (JNum 12)) ∧
  PublicSpecies.getTotalPublished
    (Ok (Some (JObj {[ "pagination" := JObj {[ "total" := JNum 12 ]} ]}))) = JNum 0.
Proof.
  split; [repeat split; reflexivity|].
  apply (getTotalPublished_envelope {[ "pagination" := JObj {[ "total" := JNum 12 ]} ]}
           {[ "total" := JNum 12 ]} 12); reflexivity.
Defined.


End PublicExtras.

Section PublicListExtras.

(** X28.  [getLastPublished] maps an answer exactly as [findPublished]
    maps it: for every response, and whatever page and limit
    [findPublished] was asked for, the two return the same entries (none
    when the request failed, when [data] is not an array, or when an
    item is [null]). *)
Theorem getLastPublished_as_findPublished (page limit : Z) (response : outcome jsval) :
  PublicSpecies.getLastPublished response
  = PublicSpecies.data (PublicSpecies.findPublished page limit response).
Proof.
  unfold PublicSpecies.getLastPublished, PublicSpecies.findPublished.
  destruct response as [[[| | | | | |r]|]|]; try done.
  destruct (or_else (r !! "data") (Some (JArr []))) as [[| | | | |items|]|]; try done.
  by destruct (existsb PublicSpecies.is_null items).
Qed.

End PublicListExtras.
